(** * Handmade by Rama API: a shallow embedding of [schemas.py] and [main.py]

    The development follows the two source files.  Python values are
    modelled as the code has them: [str] as [string] (a character is a
    code point below 256), [int] as [Z], the two-valued results of a
    handler (a value, or a raised exception) as [result], documents of a
    collection as records whose optional keys are the ones the code reads
    with [dict.get], and a collection as the list of its documents in
    storage order. *)

From Stdlib Require Import Strings.String Strings.Ascii.
From Stdlib Require Import Lists.List.
From Stdlib Require Import ZArith.ZArith QArith.QArith QArith.Qround.
From Stdlib Require Import Floats.SpecFloat.
From Stdlib Require Import Arith.PeanoNat Bool.Bool.
From Stdlib Require Import micromega.Lia.
From Stdlib Require Import Sorting.Permutation Sorting.Sorted.
Import ListNotations.

Local Open Scope list_scope.
Local Open Scope string_scope.

(** ** Exceptions and results *)

(** The exceptions the two files can raise.  [HTTPException] is the only
    one the handlers raise on purpose; the others escape from a library
    call ([ValueError] from a field validator, [ValidationError] from a
    schema constructor, [InvalidId] from [bson.ObjectId], [InvalidDocument]
    from the store's client when a value of a document has no encoding). *)
Inductive exn : Type :=
| ValueError (msg : string)
| ValidationError (field : string)
| InvalidId (oid : string)
| InvalidDocument (key : string)
| HTTPException (code : nat) (detail : string).

Inductive result (A : Type) : Type :=
| Ok (a : A)
| Raise (e : exn).

Arguments Ok {A} a.
Arguments Raise {A} e.

Definition bind {A B : Type} (r : result A) (k : A -> result B) : result B :=
  match r with
  | Ok a => k a
  | Raise e => Raise e
  end.

Notation "x <- r ;; k" := (bind r (fun x => k))
  (at level 61, r at next level, right associativity).

Definition is_ok {A : Type} (r : result A) : bool :=
  match r with Ok _ => true | Raise _ => false end.

(** The status line the framework answers with when a handler raises:
    an [HTTPException] carries its own code, every other exception that
    leaves a handler is an internal server error. *)
Definition http_status (e : exn) : nat :=
  match e with
  | HTTPException code _ => code
  | _ => 500
  end.

Definition client_error (e : exn) : bool :=
  (400 <=? http_status e)%nat && (http_status e <? 500)%nat.

(** ** Python strings *)

Module PyStr.

(** [str.isspace] on the code points below 256: tab to carriage return,
    the four separators 0x1c..0x1f, space, NEL and no-break space. *)
Definition is_space (c : ascii) : bool :=
  let n := nat_of_ascii c in
  ((9 <=? n) && (n <=? 13) || (28 <=? n) && (n <=? 32)
   || (n =? 133) || (n =? 160))%nat.

Fixpoint lstrip (s : string) : string :=
  match s with
  | String c s' => if is_space c then lstrip s' else s
  | EmptyString => EmptyString
  end.

Fixpoint rstrip (s : string) : string :=
  match s with
  | String c s' =>
      match rstrip s' with
      | EmptyString => if is_space c then EmptyString else String c EmptyString
      | r => String c r
      end
  | EmptyString => EmptyString
  end.

(** [v.strip()] *)
Definition strip (s : string) : string := rstrip (lstrip s).

(** [len(v)] *)
Definition len (v : string) : nat := String.length v.

(** [v.startswith(p)] *)
Definition startswith (v p : string) : bool := String.prefix p v.

(** [v[1:]] *)
Definition tail (v : string) : string :=
  match v with
  | String _ v' => v'
  | EmptyString => EmptyString
  end.

Definition is_digit (c : ascii) : bool :=
  let n := nat_of_ascii c in ((48 <=? n) && (n <=? 57))%nat.

Fixpoint all_digits (s : string) : bool :=
  match s with
  | String c s' => is_digit c && all_digits s'
  | EmptyString => true
  end.

Definition first (s : string) : option ascii :=
  match s with String c _ => Some c | EmptyString => None end.

Fixpoint last (s : string) : option ascii :=
  match s with
  | EmptyString => None
  | String c EmptyString => Some c
  | String _ s' => last s'
  end.

(** The lower-case form of an ASCII letter; other characters are kept. *)
Definition lower (c : ascii) : ascii :=
  let n := nat_of_ascii c in
  if ((65 <=? n) && (n <=? 90))%nat then ascii_of_nat (n + 32) else c.

Fixpoint lower_str (s : string) : string :=
  match s with
  | String c s' => String (lower c) (lower_str s')
  | EmptyString => EmptyString
  end.

(** A string that neither starts nor ends with white space. *)
Definition trimmed (s : string) : Prop :=
  (forall c, first s = Some c -> is_space c = false) /\
  (forall c, last s = Some c -> is_space c = false).

End PyStr.

(** ** Numbers *)

(** A Python [float] is modelled by the rational it denotes.  The only
    float arithmetic of the program is [usd * rate] in [seed_products], with
    [usd] one of 2.5 and 1.5 and [rate] an [int]: in binary64 that product
    is exact as long as [5 * |rate| < 2^53], which is why the statements
    about it bound the rate by [rate_exact]. *)
Definition float := Q.

Definition rate_exact : Z := 2 ^ 50.

(** [int(x)] on a float: truncation toward zero. *)
Definition int_of_float (x : float) : Z := Z.quot (Qnum x) (Zpos (Qden x)).

(** [x * n] with [x] a float and [n] an int. *)
Definition float_mul_int (x : float) (n : Z) : float := Qmult x (inject_Z n).

(** [round(x)] as Python has it (and as the specification names it):
    the nearest integer, a tie going to the even neighbour. *)
Definition py_round (x : float) : Z :=
  let f := Qfloor x in
  let twice := Qminus (Qmult (inject_Z 2) x) (inject_Z (2 * f)) in
  match Qcompare twice (inject_Z 1) with
  | Lt => f
  | Gt => (f + 1)%Z
  | Eq => if Z.even f then f else (f + 1)%Z
  end.

(** Rounding with ties away from zero, the other common reading of "round"
    (on non-negative numbers). *)
Definition round_half_up (x : float) : Z :=
  Qfloor (Qplus x (1 # 2)).

(** The same product in IEEE 754 binary64, the format of a Python float,
    to check the rational model against: [usd] is [halves / 2]. *)
Module Binary64.
Definition prec : Z := 53.
Definition emax : Z := 1024.

(** [float(n)] *)
Definition of_int (n : Z) : spec_float :=
  binary_normalize prec emax n 0 false.

(** The float [halves / 2]. *)
Definition of_halves (halves : Z) : spec_float :=
  binary_normalize prec emax halves (-1) false.

(** [int(x)]; [None] on an infinity or a NaN, where Python raises. *)
Definition to_int (x : spec_float) : option Z :=
  match x with
  | S754_zero _ => Some 0%Z
  | S754_finite s m e =>
      let a := if (0 <=? e)%Z then (Zpos m * 2 ^ e)%Z
               else Z.quot (Zpos m) (2 ^ (- e)) in
      Some (if s then (- a)%Z else a)
  | S754_infinity _ | S754_nan => None
  end.

(** [int(usd * rate)] *)
Definition price_syp (halves rate : Z) : option Z :=
  to_int (SFmul prec emax (of_halves halves) (of_int rate)).
End Binary64.

Definition datetime := nat.
Definition date := nat.

(** ** bson.ObjectId *)

Module Bson.
Import PyStr.

Definition is_hex (c : ascii) : bool :=
  let n := nat_of_ascii c in
  ((48 <=? n) && (n <=? 57) || (65 <=? n) && (n <=? 70)
   || (97 <=? n) && (n <=? 102))%nat.

Fixpoint all_hex (s : string) : bool :=
  match s with
  | String c s' => is_hex c && all_hex s'
  | EmptyString => true
  end.

(** An ObjectId is twelve bytes; it is kept as the 24 lower-case
    hexadecimal digits [str] prints. *)
Inductive ObjectId : Type := Oid (hex : string).

(** [ObjectId.is_valid(s)] on a [str], as the library documents it:
    24 hexadecimal digits.  (The library is more lenient on one point that
    is left out here: in a string of 24 characters it also lets white space
    stand between two bytes, and then builds an identifier of fewer than
    twelve bytes, which no document of the store carries.  On every other
    string, the ones of another length among them, this is what the library
    does.) *)
Definition is_valid (s : string) : bool :=
  (len s =? 24)%nat && all_hex s.

(** [ObjectId(s)]: raises [InvalidId] on a string that is not valid. *)
Definition ObjectId_of (s : string) : result ObjectId :=
  if is_valid s then Ok (Oid (lower_str s)) else Raise (InvalidId s).

(** [str(oid)] *)
Definition str (o : ObjectId) : string :=
  match o with Oid h => h end.

Definition eqb (a b : ObjectId) : bool := String.eqb (str a) (str b).

End Bson.

(** A value of a dictionary key that the code stores either as a [str]
    or as an [ObjectId] (the [product_id] of an order item). *)
Inductive pyval : Type :=
| VStr (s : string)
| VOid (o : Bson.ObjectId).

(** ** schemas.py *)

Module Schemas.
Import PyStr.

Definition CategoryLiteral : list string :=
  ["necklaces"; "bracelets"; "earrings"; "rings"].

Definition OrderStatus : list string :=
  ["Pending COD"; "Pending"; "Confirmed"; "On Delivery"; "Delivered";
   "Canceled"].

(** [x in xs] on strings. *)
Definition str_in (x : string) (xs : list string) : bool :=
  existsb (String.eqb x) xs.

Definition phone_error : exn :=
  ValueError "Phone must be in Syrian format starting with +963 or 09".

(** [Address.validate_phone] *)
Definition validate_phone (v : string) : result string :=
  let v := strip v in
  if startswith v "+963" && ((len v =? 12) || (len v =? 13))%nat then
    Ok v
  else if startswith v "09" && (len v =? 10)%nat then
    Ok ("+963" ++ tail v)
  else
    Raise phone_error.

(** The two shapes the validator lets through, as it tests them. *)
Definition intl_shape (v : string) : Prop :=
  startswith v "+963" = true /\ (len v = 12 \/ len v = 13)%nat.

Definition local_shape (v : string) : Prop :=
  startswith v "09" = true /\ len v = 10%nat.

(** The two shapes in the words of the specification: a Syrian number is
    [09] followed by eight digits, or [+963] followed by nine digits. *)
Definition spec_phone_shape (s : string) : bool :=
  (startswith s "09" && (len s =? 10)%nat && all_digits (tail s))
  || (startswith s "+963" && (len s =? 13)%nat && all_digits (tail s)).

(** A field validator that raises makes the constructor of the model
    raise a [ValidationError] naming the field. *)
Definition field {A : Type} (name : string) (r : result A) : result A :=
  match r with
  | Ok a => Ok a
  | Raise _ => Raise (ValidationError name)
  end.

Definition check (name : string) (b : bool) : result unit :=
  if b then Ok tt else Raise (ValidationError name).

Module Address.
Record t : Type := mk {
  id : option string;
  full_name : string;
  phone : string;
  city : string;
  street : string;
  notes : option string;
}.

(** [Address(full_name=.., phone=.., city=.., street=.., notes=..)] *)
Definition make (id : option string) (full_name phone city street : string)
    (notes : option string) : result t :=
  p <- field "phone" (validate_phone phone) ;;
  Ok (mk id full_name p city street notes).
End Address.

Module User.
Record t : Type := mk {
  phone : string;
  name : string;
  addresses : list Address.t;
  is_active : bool;
}.

(** [User(phone=.., name=.., addresses=..)]: no validator on any field,
    [is_active] takes its default. *)
Definition make (phone name : string) (addresses : list Address.t) : t :=
  mk phone name addresses true.
End User.

Module Product.
Record t : Type := mk {
  name : string;
  description : option string;
  category : string;
  price_syp : Z;
  price_usd : float;
  images : list string;
  featured : bool;
  new_arrival : bool;
  in_stock : bool;
}.

(** The keyword arguments [p] of the call [Product( **p )]: the three
    flags may be left out. *)
Record kwargs : Type := mk_kwargs {
  k_name : string;
  k_description : option string;
  k_category : string;
  k_price_syp : Z;
  k_price_usd : float;
  k_images : list string;
  k_featured : option bool;
  k_new_arrival : option bool;
  k_in_stock : option bool;
}.

Definition default {A : Type} (o : option A) (d : A) : A :=
  match o with Some a => a | None => d end.

(** [Product( **p )] *)
Definition make (p : kwargs) : result t :=
  _ <- check "category" (str_in (k_category p) CategoryLiteral) ;;
  _ <- check "price_syp" (0 <=? k_price_syp p)%Z ;;
  _ <- check "price_usd" (Qle_bool 0 (k_price_usd p)) ;;
  Ok (mk (k_name p) (k_description p) (k_category p) (k_price_syp p)
         (k_price_usd p) (k_images p)
         (default (k_featured p) false)
         (default (k_new_arrival p) false)
         (default (k_in_stock p) true)).
End Product.

(** An order item as a dictionary: what [create_order] builds for each
    line, and what an order document stores. *)
Module ItemDict.
Record t : Type := mk {
  product_id : pyval;
  name : string;
  category : string;
  quantity : Z;
  price_syp : Z;
  price_usd : float;
  image : option string;
}.
End ItemDict.

Module OrderItem.
Record t : Type := mk {
  product_id : string;
  name : string;
  category : string;
  quantity : Z;
  price_syp : Z;
  price_usd : float;
  image : option string;
}.

(** A [str] field takes a [str]; the validation library does not turn
    any other object into one. *)
Definition str_field (name : string) (v : pyval) : result string :=
  match v with
  | VStr s => Ok s
  | VOid _ => Raise (ValidationError name)
  end.

(** [OrderItem( **d )] *)
Definition make (d : ItemDict.t) : result t :=
  pid <- str_field "product_id" (ItemDict.product_id d) ;;
  _ <- check "category" (str_in (ItemDict.category d) CategoryLiteral) ;;
  _ <- check "quantity" (1 <=? ItemDict.quantity d)%Z ;;
  Ok (mk pid (ItemDict.name d) (ItemDict.category d) (ItemDict.quantity d)
         (ItemDict.price_syp d) (ItemDict.price_usd d) (ItemDict.image d)).

(** [item.model_dump()] *)
Definition model_dump (i : t) : ItemDict.t :=
  ItemDict.mk (VStr (product_id i)) (name i) (category i) (quantity i)
              (price_syp i) (price_usd i) (image i).
End OrderItem.

Module Order.
Record t : Type := mk {
  user_phone : string;
  user_name : string;
  items : list OrderItem.t;
  address : Address.t;
  city : string;
  notes : option string;
  status : string;
  admin_note : option string;
  expected_delivery_date : option date;
}.

Fixpoint make_items (ds : list ItemDict.t) : result (list OrderItem.t) :=
  match ds with
  | [] => Ok []
  | d :: ds' =>
      i <- OrderItem.make d ;;
      is' <- make_items ds' ;;
      Ok (i :: is')
  end.

(** [Order(user_phone=.., user_name=.., items=.., address=.., city=..,
    notes=.., status=..)] *)
Definition make (user_phone user_name : string) (items : list ItemDict.t)
    (address : Address.t) (city : string) (notes : option string)
    (status : string) : result t :=
  its <- make_items items ;;
  _ <- check "status" (str_in status OrderStatus) ;;
  Ok (mk user_phone user_name its address city notes status None None).
End Order.

End Schemas.

(** ** The document store *)

Module Db.
Import Bson Schemas.

(** A stored document: the identifier the store gave it, and its keys. *)
Record doc (A : Type) : Type := mk_doc { _id : ObjectId; fields : A }.
Arguments mk_doc {A} _ _.
Arguments _id {A} _.
Arguments fields {A} _.

(** A collection is the list of its documents in storage order. *)
Definition collection (A : Type) : Type := list (doc A).

Definition id_is {A : Type} (oid : ObjectId) (d : doc A) : bool :=
  Bson.eqb (_id d) oid.

(** [coll.find(q)], [q] being the predicate the query denotes. *)
Definition find {A : Type} (q : doc A -> bool) (c : collection A)
  : list (doc A) := filter q c.

(** [coll.find_one(q)]: the first match in storage order. *)
Definition find_one {A : Type} (q : doc A -> bool) (c : collection A)
  : option (doc A) := List.find q c.

(** [coll.count_documents({})] *)
Definition count_documents {A : Type} (c : collection A) : nat :=
  List.length c.

(** [coll.update_one(q, {"$set": ..})]: the first match is rewritten by
    [set]; the result carries [matched_count]. *)
Fixpoint update_one {A : Type} (q : doc A -> bool) (set : A -> A)
    (c : collection A) : collection A * nat :=
  match c with
  | [] => ([], 0%nat)
  | d :: c' =>
      if q d then (mk_doc (_id d) (set (fields d)) :: c', 1%nat)
      else let (c'', n) := update_one q set c' in (d :: c'', n)
  end.

(** [coll.insert_one(d)]: the store picks the identifier [oid]. *)
Definition insert_one {A : Type} (oid : ObjectId) (a : A)
    (c : collection A) : collection A :=
  (c ++ [mk_doc oid a])%list.

Fixpoint with_ids {A : Type} (gen : nat -> ObjectId) (k : nat)
    (docs : list A) : list (doc A) :=
  match docs with
  | [] => []
  | a :: docs' => mk_doc (gen k) a :: with_ids gen (S k) docs'
  end.

(** [coll.insert_many(docs)]: the [k]-th document gets the [k]-th
    identifier the store generates. *)
Definition insert_many {A : Type} (gen : nat -> ObjectId) (docs : list A)
    (c : collection A) : collection A :=
  (c ++ with_ids gen 0 docs)%list.

(** [coll.delete_many({})] *)
Definition delete_many {A : Type} (c : collection A) : collection A := [].

(** The keys of a product document.  [price_syp], [price_usd] and
    [images] are the keys [create_order] reads with [dict.get]. *)
Module ProductDoc.
Record t : Type := mk {
  name : string;
  description : option string;
  category : string;
  price_syp : option Z;
  price_usd : option float;
  images : option (list string);
  featured : bool;
  new_arrival : bool;
  in_stock : bool;
  created_at : datetime;
  updated_at : datetime;
}.
End ProductDoc.

(** The keys of a user document; [addresses] is read with [dict.get]. *)
Module UserDoc.
Record t : Type := mk {
  phone : string;
  name : string;
  addresses : option (list Address.t);
  is_active : bool;
  created_at : datetime;
  updated_at : datetime;
}.
End UserDoc.

Module OrderDoc.
Record t : Type := mk {
  user_phone : string;
  user_name : string;
  items : list ItemDict.t;
  address : Address.t;
  city : string;
  notes : option string;
  status : string;
  admin_note : option string;
  expected_delivery_date : option date;
  created_at : datetime;
  updated_at : datetime;
}.
End OrderDoc.

(** [db]: the three collections the handlers use. *)
Record t : Type := mk {
  product : collection ProductDoc.t;
  user : collection UserDoc.t;
  order : collection OrderDoc.t;
}.

Definition empty : t := mk [] [] [].

End Db.

(** ** Regular expressions of the store's [$regex] operator *)

(** The operator runs an unanchored search of a Perl-compatible regular
    expression.  The fragment modelled here is the one the statements below
    need: a pattern made of ASCII characters that are not metacharacters,
    each standing for itself, and of the dot, standing for any character but
    a newline.  [compile] answers [None] on every other pattern. *)
Module Regex.
Import PyStr.

Inductive atom : Type :=
| Lit (c : ascii)
| AnyChar.

Definition metachars : string := "\^$.[|()?*+{".

Fixpoint mem (c : ascii) (s : string) : bool :=
  match s with
  | String x s' => Ascii.eqb c x || mem c s'
  | EmptyString => false
  end.

(** An ASCII character that stands for itself in a pattern. *)
Definition plain (c : ascii) : bool :=
  negb (mem c metachars)
  && (0 <? nat_of_ascii c)%nat && (nat_of_ascii c <? 128)%nat.

Fixpoint all_plain (s : string) : bool :=
  match s with
  | String c s' => plain c && all_plain s'
  | EmptyString => true
  end.

Fixpoint compile (pat : string) : option (list atom) :=
  match pat with
  | EmptyString => Some []
  | String c pat' =>
      if Ascii.eqb c "." then option_map (cons AnyChar) (compile pat')
      else if plain c then option_map (cons (Lit c)) (compile pat')
      else None
  end.

(** One atom against one character, with the option [i]. *)
Definition atom_match_i (a : atom) (c : ascii) : bool :=
  match a with
  | Lit x => Ascii.eqb (lower x) (lower c)
  | AnyChar => negb (Ascii.eqb c "010")
  end.

Fixpoint match_here (re : list atom) (s : string) : bool :=
  match re, s with
  | [], _ => true
  | a :: re', String c s' => atom_match_i a c && match_here re' s'
  | _ :: _, EmptyString => false
  end.

Fixpoint search (re : list atom) (s : string) : bool :=
  match_here re s
  || match s with
     | String _ s' => search re s'
     | EmptyString => false
     end.

End Regex.

(** ** main.py *)

Module Main.
Import PyStr Bson Schemas Db.

(** What the environment holds for [USD_TO_SYP], as [int] sees it. *)
Inductive env_rate : Type :=
| Unset
| NotAnInt
| IntLiteral (z : Z).

(** [usd_to_syp_rate] *)
Definition usd_to_syp_rate (env : env_rate) : Z :=
  match env with
  | IntLiteral z => z
  | Unset | NotAnInt => 15000%Z
  end.

(** A document as the handlers answer it: [_id] popped, [id] set to its
    string. *)
Record with_id (A : Type) : Type := mk_with_id { id : string; data : A }.
Arguments mk_with_id {A} _ _.
Arguments id {A} _.
Arguments data {A} _.

(** [product_doc_with_id] *)
Definition product_doc_with_id {A : Type} (d : option (doc A))
  : option (with_id A) :=
  match d with
  | None => None
  | Some d => Some (mk_with_id (str (_id d)) (fields d))
  end.

Definition stringify_product_id (it : ItemDict.t) : ItemDict.t :=
  match ItemDict.product_id it with
  | VOid o =>
      ItemDict.mk (VStr (str o)) (ItemDict.name it) (ItemDict.category it)
        (ItemDict.quantity it) (ItemDict.price_syp it)
        (ItemDict.price_usd it) (ItemDict.image it)
  | VStr _ => it
  end.

Definition set_items (f : list ItemDict.t -> list ItemDict.t)
    (o : OrderDoc.t) : OrderDoc.t :=
  OrderDoc.mk (OrderDoc.user_phone o) (OrderDoc.user_name o)
    (f (OrderDoc.items o)) (OrderDoc.address o) (OrderDoc.city o)
    (OrderDoc.notes o) (OrderDoc.status o) (OrderDoc.admin_note o)
    (OrderDoc.expected_delivery_date o) (OrderDoc.created_at o)
    (OrderDoc.updated_at o).

(** [order_doc_with_id] *)
Definition order_doc_with_id (d : option (doc OrderDoc.t))
  : option (with_id OrderDoc.t) :=
  match d with
  | None => None
  | Some d =>
      Some (mk_with_id (str (_id d))
              (set_items (map stringify_product_id) (fields d)))
  end.

(** *** Products *)

(** The equality filter [q] of [list_products]. *)
Record query : Type := mk_query {
  q_category : option string;
  q_featured : option bool;
  q_new_arrival : option bool;
}.

Definition opt_test {A : Type} (eq : A -> A -> bool) (o : option A) (a : A)
  : bool :=
  match o with
  | None => true
  | Some x => eq a x
  end.

(** A product document matches [q]. *)
Definition matches (q : query) (d : doc ProductDoc.t) : bool :=
  opt_test String.eqb (q_category q) (ProductDoc.category (fields d))
  && opt_test Bool.eqb (q_featured q) (ProductDoc.featured (fields d))
  && opt_test Bool.eqb (q_new_arrival q) (ProductDoc.new_arrival (fields d)).

(** [if s:] on an optional string: given and not empty. *)
Definition truthy (s : option string) : option string :=
  match s with
  | Some EmptyString | None => None
  | Some s => Some s
  end.

Inductive sort_field : Type := ByName | ByPriceSyp | ByCreatedAt.

(** [sort_map]; the direction is [true] for 1 and [false] for -1. *)
Definition sort_map (key : string) : option (sort_field * bool) :=
  if String.eqb key "name_asc" then Some (ByName, true)
  else if String.eqb key "name_desc" then Some (ByName, false)
  else if String.eqb key "price_asc" then Some (ByPriceSyp, true)
  else if String.eqb key "price_desc" then Some (ByPriceSyp, false)
  else if String.eqb key "new" then Some (ByCreatedAt, false)
  else None.

(** A missing key sorts before every number. *)
Definition opt_leb (a b : option Z) : bool :=
  match a, b with
  | None, _ => true
  | Some _, None => false
  | Some x, Some y => (x <=? y)%Z
  end.

Definition field_leb (f : sort_field) (a b : doc ProductDoc.t) : bool :=
  match f with
  | ByName => String.leb (ProductDoc.name (fields a)) (ProductDoc.name (fields b))
  | ByPriceSyp =>
      opt_leb (ProductDoc.price_syp (fields a)) (ProductDoc.price_syp (fields b))
  | ByCreatedAt =>
      (ProductDoc.created_at (fields a) <=? ProductDoc.created_at (fields b))%nat
  end.

Fixpoint insert_by {A : Type} (leb : A -> A -> bool) (x : A) (l : list A)
  : list A :=
  match l with
  | [] => [x]
  | y :: l' => if leb x y then x :: l else y :: insert_by leb x l'
  end.

(** [cursor.sort(field, direction)] *)
Definition sort_cursor (f : sort_field) (ascending : bool)
    (cursor : list (doc ProductDoc.t)) : list (doc ProductDoc.t) :=
  let leb a b := if ascending then field_leb f a b else field_leb f b a in
  fold_right (insert_by leb) [] cursor.

(** The answer of [list_products]. *)
Module Listing.
Record t : Type := mk {
  items : list (option (with_id ProductDoc.t));
  count : nat;
}.
End Listing.

(** [list_products]; [None] when the search string is a pattern outside
    the fragment of [Regex]. *)
Definition list_products (db : Db.t) (category search : option string)
    (featured new_arrival : option bool) (sort : option string)
  : option Listing.t :=
  let q := mk_query (truthy category) featured new_arrival in
  let cursor := Some (find (matches q) (product db)) in
  let cursor :=
    match truthy search with
    | Some pat =>
        option_map
          (fun re =>
             find (fun d => matches q d
                            && Regex.search re (ProductDoc.name (fields d)))
                  (product db))
          (Regex.compile pat)
    | None => cursor
    end in
  let cursor :=
    match option_map sort_map (truthy sort) with
    | Some (Some (f, direction)) => option_map (sort_cursor f direction) cursor
    | _ => cursor
    end in
  option_map
    (fun cursor =>
       let products := map (fun p => product_doc_with_id (Some p)) cursor in
       Listing.mk products (List.length products))
    cursor.

(** [get_product] *)
Definition get_product (db : Db.t) (product_id : string)
  : result (option (with_id ProductDoc.t)) :=
  oid <- ObjectId_of product_id ;;
  match find_one (id_is oid) (product db) with
  | None => Raise (HTTPException 404 "Product not found")
  | Some doc => Ok (product_doc_with_id (Some doc))
  end.

(** *** Seeding *)

Module SeedAnswer.
Record t : Type := mk { status : string; count : nat }.
End SeedAnswer.

(** [priced], the helper local to [seed_products]: the pair is
    [(price_usd, price_syp)]. *)
Definition priced (rate : Z) (category : string) (usd : option float)
  : float * Z :=
  match usd with
  | None => (inject_Z 0, 0%Z)
  | Some usd => (usd, int_of_float (float_mul_int usd rate))
  end.

Definition seed_entry (name description category : string)
    (price : float * Z) (featured new_arrival in_stock : option bool)
  : Product.kwargs :=
  Product.mk_kwargs name (Some description) category (snd price) (fst price)
    [] featured new_arrival in_stock.

(** The list [seed] of [seed_products]. *)
Definition seed (rate : Z) : list Product.kwargs :=
  [ seed_entry "Handmade Necklace 1" "Elegant minimalist handmade necklace."
      "necklaces" (priced rate "necklaces" (Some (5 # 2)))
      (Some true) (Some true) None;
    seed_entry "Handmade Necklace 2" "Delicate everyday necklace."
      "necklaces" (priced rate "necklaces" (Some (5 # 2)))
      None None None;
    seed_entry "Handmade Bracelet 1" "Simple bracelet for daily wear."
      "bracelets" (priced rate "bracelets" (Some (3 # 2)))
      None (Some true) None;
    seed_entry "Handmade Earrings 1" "Lightweight handmade earrings."
      "earrings" (priced rate "earrings" (Some (3 # 2)))
      (Some true) None None;
    seed_entry "Handmade Ring 1" "Adjustable handmade ring."
      "rings" (priced rate "rings" None)
      None None (Some true) ].

(** [schema.model_dump()] with the two time stamps added. *)
Definition product_dump (p : Product.t) (created updated : datetime)
  : ProductDoc.t :=
  ProductDoc.mk (Product.name p) (Product.description p)
    (Product.category p) (Some (Product.price_syp p))
    (Some (Product.price_usd p)) (Some (Product.images p))
    (Product.featured p) (Product.new_arrival p) (Product.in_stock p)
    created updated.

(** The loop over [seed]; the clock is read twice for each product, [k]
    counts the products done. *)
Fixpoint seed_docs (now : nat -> datetime) (k : nat)
    (ps : list Product.kwargs) : result (list ProductDoc.t) :=
  match ps with
  | [] => Ok []
  | p :: ps' =>
      schema <- Product.make p ;;
      let doc := product_dump schema (now (2 * k)%nat) (now (2 * k + 1)%nat) in
      docs <- seed_docs now (S k) ps' ;;
      Ok (doc :: docs)
  end.

Definition set_product (db : Db.t) (c : collection ProductDoc.t) : Db.t :=
  Db.mk c (user db) (order db).

Definition set_user (db : Db.t) (c : collection UserDoc.t) : Db.t :=
  Db.mk (product db) c (order db).

Definition set_order (db : Db.t) (c : collection OrderDoc.t) : Db.t :=
  Db.mk (product db) (user db) c.

(** [seed_products].  [now k] is the [k]-th reading of the clock during
    the request and [gen k] the [k]-th identifier the store generates. *)
Definition seed_products (now : nat -> datetime) (gen : nat -> ObjectId)
    (env : env_rate) (db : Db.t) (force : bool)
  : result SeedAnswer.t * Db.t :=
  let count := count_documents (product db) in
  if (0 <? count)%nat && negb force then
    (Ok (SeedAnswer.mk "exists" count), db)
  else
    let rate := usd_to_syp_rate env in
    match seed_docs now 0 (seed rate) with
    | Raise e => (Raise e, db)
    | Ok docs =>
        (Ok (SeedAnswer.mk "seeded" (List.length docs)),
         set_product db (insert_many gen docs (delete_many (product db))))
    end.

(** *** Users and addresses *)

(** The answer [{"ok": True}]. *)
Inductive ack : Type := ok.

Definition phone_is (phone : string) (u : doc UserDoc.t) : bool :=
  String.eqb (UserDoc.phone (fields u)) phone.

(** [user.get("addresses", [])] *)
Definition addresses_of (u : doc UserDoc.t) : list Address.t :=
  match UserDoc.addresses (fields u) with
  | Some l => l
  | None => []
  end.

(** [get_addresses] *)
Definition get_addresses (db : Db.t) (phone : string) : list Address.t :=
  match find_one (phone_is phone) (user db) with
  | None => []
  | Some user => addresses_of user
  end.

(** The test under [any] in [add_address] and [create_order]. *)
Definition same_key (phone street : string) (a : Address.t) : bool :=
  String.eqb (Address.phone a) phone && String.eqb (Address.street a) street.

(** [user_doc = User(..).model_dump()] with the two time stamps added. *)
Definition user_dump (u : User.t) (created updated : datetime) : UserDoc.t :=
  UserDoc.mk (User.phone u) (User.name u) (Some (User.addresses u))
    (User.is_active u) created updated.

(** The update [{"$set": {"addresses": .., "updated_at": ..}}]. *)
Definition set_addresses (addresses : list Address.t) (t : datetime)
    (u : UserDoc.t) : UserDoc.t :=
  UserDoc.mk (UserDoc.phone u) (UserDoc.name u) (Some addresses)
    (UserDoc.is_active u) (UserDoc.created_at u) t.

(** [add_address], on a body that passed the [Address] schema. *)
Definition add_address (now : nat -> datetime) (gen : nat -> ObjectId)
    (db : Db.t) (phone : string) (body : Address.t) : result ack * Db.t :=
  let addr := body in
  match find_one (phone_is phone) (user db) with
  | None =>
      let user_doc :=
        user_dump (User.make phone (Address.full_name body) [body])
                  (now 0%nat) (now 1%nat) in
      (Ok ok, set_user db (insert_one (gen 0%nat) user_doc (user db)))
  | Some user =>
      let addresses := addresses_of user in
      let exists_ :=
        existsb (same_key (Address.phone addr) (Address.street addr))
                addresses in
      if negb exists_ then
        let addresses := (addresses ++ [addr])%list in
        (Ok ok,
         set_user db
           (fst (update_one (id_is (_id user))
                   (set_addresses addresses (now 0%nat)) (Db.user db))))
      else (Ok ok, db)
  end.

(** What the framework answers when a request body fails its schema. *)
Definition unprocessable : exn := HTTPException 422 "Unprocessable Entity".

(** The route [POST /api/user/{phone}/addresses]: the body is parsed
    against [AddressIn] before [add_address] runs. *)
Definition post_address (now : nat -> datetime) (gen : nat -> ObjectId)
    (db : Db.t) (phone : string) (raw : Address.t) : result ack * Db.t :=
  match Address.make (Address.id raw) (Address.full_name raw)
          (Address.phone raw) (Address.city raw) (Address.street raw)
          (Address.notes raw) with
  | Raise _ => (Raise unprocessable, db)
  | Ok body => add_address now gen db phone body
  end.

(** *** Orders *)

Module OrderItemIn.
Record t : Type := mk { product_id : string; quantity : Z }.
End OrderItemIn.

Module OrderCreateIn.
Record t : Type := mk {
  full_name : string;
  phone : string;
  city : string;
  street : string;
  notes : option string;
  address_id : option string;
  items : list OrderItemIn.t;
}.
End OrderCreateIn.

Module OrderAnswer.
Record t : Type := mk { id : string; status : string }.
End OrderAnswer.

(** [(prod.get("images") or [None])[0]] *)
Definition first_image (images : option (list string)) : option string :=
  match images with
  | Some (img :: _) => Some img
  | Some [] | None => None
  end.

Definition get_default {A : Type} (o : option A) (d : A) : A :=
  match o with Some a => a | None => d end.

(** The dictionary [create_order] appends to [items_out] for the line
    [it] and the product [prod]. *)
Definition snapshot (it : OrderItemIn.t) (prod : doc ProductDoc.t)
  : ItemDict.t :=
  let price_syp := get_default (ProductDoc.price_syp (fields prod)) 0%Z in
  let price_usd :=
    get_default (ProductDoc.price_usd (fields prod)) (inject_Z 0) in
  ItemDict.mk (VOid (_id prod)) (ProductDoc.name (fields prod))
    (ProductDoc.category (fields prod)) (OrderItemIn.quantity it)
    price_syp price_usd (first_image (ProductDoc.images (fields prod))).

(** The first loop of [create_order]: it stops at the first line whose
    product is not found. *)
Fixpoint items_out (products : collection ProductDoc.t)
    (its : list OrderItemIn.t) : result (list ItemDict.t) :=
  match its with
  | [] => Ok []
  | it :: its' =>
      oid <- ObjectId_of (OrderItemIn.product_id it) ;;
      match find_one (id_is oid) products with
      | None =>
          Raise (HTTPException 400
                   ("Invalid product: " ++ OrderItemIn.product_id it))
      | Some prod =>
          rest <- items_out products its' ;;
          Ok (snapshot it prod :: rest)
      end
  end.

(** [order_doc = order_schema.model_dump()] with the time stamps added. *)
Definition order_dump (o : Order.t) (created updated : datetime)
  : OrderDoc.t :=
  OrderDoc.mk (Order.user_phone o) (Order.user_name o)
    (map OrderItem.model_dump (Order.items o)) (Order.address o)
    (Order.city o) (Order.notes o) (Order.status o) (Order.admin_note o)
    (Order.expected_delivery_date o) created updated.

(** The end of [create_order]: upsert the user and save the address. *)
Definition upsert_user (now : datetime) (oid : ObjectId) (addr : Address.t)
    (users : collection UserDoc.t) : collection UserDoc.t :=
  match find_one (phone_is (Address.phone addr)) users with
  | None =>
      insert_one oid
        (user_dump (User.make (Address.phone addr) (Address.full_name addr)
                      [addr]) now now)
        users
  | Some user =>
      let addresses := addresses_of user in
      let exists_ :=
        existsb (same_key (Address.phone addr) (Address.street addr))
                addresses in
      if negb exists_ then
        fst (update_one (id_is (_id user))
               (set_addresses (addresses ++ [addr])%list now) users)
      else users
  end.

(** [create_order] *)
Definition create_order (now : nat -> datetime) (gen : nat -> ObjectId)
    (db : Db.t) (body : OrderCreateIn.t) : result OrderAnswer.t * Db.t :=
  match items_out (product db) (OrderCreateIn.items body) with
  | Raise e => (Raise e, db)
  | Ok items_out =>
      match Address.make None (OrderCreateIn.full_name body)
              (OrderCreateIn.phone body) (OrderCreateIn.city body)
              (OrderCreateIn.street body) (OrderCreateIn.notes body) with
      | Raise e => (Raise e, db)
      | Ok addr =>
          match Order.make (Address.phone addr) (Address.full_name addr)
                  items_out addr (Address.city addr) (Address.notes addr)
                  "Pending COD" with
          | Raise e => (Raise e, db)
          | Ok order_schema =>
              let now := now 0%nat in
              let order_doc := order_dump order_schema now now in
              let inserted_id := gen 0%nat in
              let db := set_order db (insert_one inserted_id order_doc (order db)) in
              let db := set_user db (upsert_user now (gen 1%nat) addr (user db)) in
              (Ok (OrderAnswer.mk (str inserted_id) "Pending COD"), db)
          end
      end
  end.

(** The route [POST /api/orders]: the body is parsed against
    [OrderCreateIn], whose lines need a quantity of at least one, before
    [create_order] runs. *)
Definition post_order (now : nat -> datetime) (gen : nat -> ObjectId)
    (db : Db.t) (body : OrderCreateIn.t) : result OrderAnswer.t * Db.t :=
  if forallb (fun it => (1 <=? OrderItemIn.quantity it)%Z)
             (OrderCreateIn.items body)
  then create_order now gen db body
  else (Raise unprocessable, db).

Module StatusUpdateIn.
Record t : Type := mk {
  status : string;
  admin_note : option string;
  expected_delivery_date : option date;
}.
End StatusUpdateIn.

(** The set [allowed] of [update_order_status]. *)
Definition allowed : list string :=
  ["Pending"; "Confirmed"; "On Delivery"; "Delivered"; "Canceled";
   "Pending COD"].

Definition or_keep {A : Type} (new old : option A) : option A :=
  match new with
  | Some a => Some a
  | None => old
  end.

(** The update [{"$set": upd}] of [update_order_status]. *)
Definition set_upd (body : StatusUpdateIn.t) (t : datetime) (o : OrderDoc.t)
  : OrderDoc.t :=
  OrderDoc.mk (OrderDoc.user_phone o) (OrderDoc.user_name o)
    (OrderDoc.items o) (OrderDoc.address o) (OrderDoc.city o)
    (OrderDoc.notes o) (StatusUpdateIn.status body)
    (or_keep (StatusUpdateIn.admin_note body) (OrderDoc.admin_note o))
    (or_keep (StatusUpdateIn.expected_delivery_date body)
             (OrderDoc.expected_delivery_date o))
    (OrderDoc.created_at o) t.

(** The client of the store encodes an update before it sends it, and a
    [datetime.date] (unlike a [datetime.datetime]) has no encoding: with
    [expected_delivery_date] in [upd], [update_one] raises before any
    document is looked at. *)
Definition encode_upd (body : StatusUpdateIn.t) : result unit :=
  match StatusUpdateIn.expected_delivery_date body with
  | Some _ => Raise (InvalidDocument "expected_delivery_date")
  | None => Ok tt
  end.

(** [update_order_status] *)
Definition update_order_status (now : nat -> datetime) (db : Db.t)
    (order_id : string) (body : StatusUpdateIn.t)
  : result (option (with_id OrderDoc.t)) * Db.t :=
  if negb (str_in (StatusUpdateIn.status body) allowed) then
    (Raise (HTTPException 400 "Invalid status"), db)
  else
    let upd := set_upd body (now 0%nat) in
    match ObjectId_of order_id with
    | Raise e => (Raise e, db)
    | Ok oid =>
        match encode_upd body with
        | Raise e => (Raise e, db)
        | Ok _ =>
            let (orders, matched_count) :=
              update_one (id_is oid) upd (order db) in
            let db := set_order db orders in
            if (matched_count =? 0)%nat then
              (Raise (HTTPException 404 "Order not found"), db)
            else
              match ObjectId_of order_id with
              | Raise e => (Raise e, db)
              | Ok oid =>
                  (Ok (order_doc_with_id (find_one (id_is oid) (order db))), db)
              end
        end
    end.

(** *** The service as a transition system *)

(** The requests that write to the store. *)
Inductive request : Type :=
| Seed (env : env_rate) (force : bool)
| PostAddress (phone : string) (raw : Address.t)
| PostOrder (body : OrderCreateIn.t)
| PatchStatus (order_id : string) (body : StatusUpdateIn.t).

(** The store after a request, whatever the answer was. *)
Definition step (now : nat -> datetime) (gen : nat -> ObjectId)
    (db : Db.t) (r : request) : Db.t :=
  match r with
  | Seed env force => snd (seed_products now gen env db force)
  | PostAddress phone raw => snd (post_address now gen db phone raw)
  | PostOrder body => snd (post_order now gen db body)
  | PatchStatus order_id body => snd (update_order_status now db order_id body)
  end.

(** The stores the service reaches from the empty one. *)
Inductive reachable : Db.t -> Prop :=
| reach_empty : reachable Db.empty
| reach_step now gen db r :
    reachable db -> reachable (step now gen db r).

End Main.

(** ** Notions the statements use *)

Module Notions.
Import PyStr Bson Schemas Db Main.

(** The line [it] of an order names the stored product [prod]. *)
Definition resolves (products : collection ProductDoc.t)
    (it : OrderItemIn.t) (prod : doc ProductDoc.t) : Prop :=
  exists oid,
    ObjectId_of (OrderItemIn.product_id it) = Ok oid /\
    find_one (id_is oid) products = Some prod.

(** Every stored order has a status of the enumeration. *)
Definition status_invariant (db : Db.t) : Prop :=
  Forall (fun d => In (OrderDoc.status (fields d)) OrderStatus) (order db).

(** [name] contains [search] as a substring, letter case aside. *)
Definition contains_ci (name search : string) : Prop :=
  exists pre post : string,
    lower_str name = pre ++ lower_str search ++ post.

(** The equality filters of a listing, on the parameters that were given
    (an empty [category] counts as not given). *)
Definition passes_filters (category : option string)
    (featured new_arrival : option bool) (d : doc ProductDoc.t) : Prop :=
  (forall c, category = Some c -> c <> "" ->
             ProductDoc.category (fields d) = c) /\
  (forall b, featured = Some b -> ProductDoc.featured (fields d) = b) /\
  (forall b, new_arrival = Some b -> ProductDoc.new_arrival (fields d) = b).

(** The name and the two prices of a product document. *)
Definition prices (d : doc ProductDoc.t)
  : string * option float * option Z :=
  (ProductDoc.name (fields d), ProductDoc.price_usd (fields d),
   ProductDoc.price_syp (fields d)).

End Notions.

(** ** Sample data *)

Module Samples.
Import PyStr Bson Schemas Db Main.

Definition clock (k : nat) : datetime := (1000 + k)%nat.

(** Distinct identifiers: the [k]-th ends with the letter number [k]. *)
Definition ids (k : nat) : ObjectId :=
  Oid (String (ascii_of_nat (97 + k)) "0123456789abcdef0123456").

Definition home : Address.t :=
  Address.mk None "Rama" "+963912345678" "Damascus" "Street 1" None.

Definition office : Address.t :=
  Address.mk None "Rama" "+963912345678" "Aleppo" "Street 2" (Some "3rd floor").

(** [home] again, with another city and a note. *)
Definition home_bis : Address.t :=
  Address.mk None "Rama H." "+963912345678" "Homs" "Street 1" (Some "ring twice").

Definition rama : doc UserDoc.t :=
  mk_doc (ids 0) (UserDoc.mk "+963912345678" "Rama" (Some [home]) true 1%nat 2%nat).

Definition with_rama : Db.t := Db.mk [] [rama] [].

Definition product_named (k : nat) (name : string)
    (images : option (list string)) : doc ProductDoc.t :=
  mk_doc (ids k)
    (ProductDoc.mk name None "rings" (Some 0%Z) (Some (inject_Z 0)) images
       false false true 1%nat 2%nat).

Definition catalog : collection ProductDoc.t :=
  [ product_named 0 "Ring" None;
    product_named 1 "Silver ring" (Some []);
    product_named 2 "Bracelet" (Some ["a.png"; "b.png"]) ].

Definition with_catalog : Db.t := Db.mk catalog [] [].

Definition empty_order : OrderCreateIn.t :=
  OrderCreateIn.mk "Rama" "0912345678" "Damascus" "Street 1" None None [].

End Samples.

(** ** main.py, the remaining functions *)

Module MainRest.
Import PyStr Bson Schemas Db Main.

Definition user_phone_is (phone : string) (o : doc OrderDoc.t) : bool :=
  String.eqb (OrderDoc.user_phone (fields o)) phone.

(** [cursor.sort(key, -1)] on orders, [key] being a time stamp. *)
Definition sort_desc (key : OrderDoc.t -> datetime)
    (cursor : list (doc OrderDoc.t)) : list (doc OrderDoc.t) :=
  fold_right
    (insert_by (fun a b => (key (fields b) <=? key (fields a))%nat)) [] cursor.

(** [get_orders]: the list under ["items"]. *)
Definition get_orders (db : Db.t) (phone : string)
  : list (option (with_id OrderDoc.t)) :=
  let cursor :=
    sort_desc OrderDoc.created_at (find (user_phone_is phone) (order db)) in
  map (fun o => order_doc_with_id (Some o)) cursor.

(** The answer of [order_notifications]; the two last keys are absent when
    [on_delivery] is false. *)
Module Notification.
Record t : Type := mk {
  on_delivery : bool;
  order_id : option string;
  expected_delivery_date : option date;
}.
End Notification.

(** The query [{"user_phone": phone, "status": "On Delivery"}]. *)
Definition on_delivery_of (phone : string) (o : doc OrderDoc.t) : bool :=
  user_phone_is phone o
  && String.eqb (OrderDoc.status (fields o)) "On Delivery".

(** [order_notifications]: [find_one] with a sort answers the first
    document of the sorted matches. *)
Definition order_notifications (db : Db.t) (phone : string) : Notification.t :=
  match sort_desc OrderDoc.updated_at
          (find (on_delivery_of phone) (order db)) with
  | [] => Notification.mk false None None
  | doc :: _ =>
      Notification.mk true (Some (str (_id doc)))
        (OrderDoc.expected_delivery_date (fields doc))
  end.

End MainRest.

(** ** Further notions *)

Module MoreNotions.
Import PyStr Bson Schemas Db Main MainRest.

(** An identifier as [ObjectId] builds it: 24 hexadecimal digits, the
    letters in lower case. *)
Definition well_formed (o : ObjectId) : Prop :=
  is_valid (str o) = true /\ lower_str (str o) = str o.

(** The constraints of the [Product] schema on a stored product. *)
Definition valid_product (d : doc ProductDoc.t) : Prop :=
  In (ProductDoc.category (fields d)) CategoryLiteral /\
  (exists n, ProductDoc.price_syp (fields d) = Some n /\ (0 <= n)%Z) /\
  (exists q, ProductDoc.price_usd (fields d) = Some q /\ Qle 0 q).

(** No item of the order carries an [ObjectId] under [product_id]. *)
Definition ids_are_strings (o : OrderDoc.t) : Prop :=
  Forall (fun it => exists s, ItemDict.product_id it = VStr s)
         (OrderDoc.items o).

(** The time an answered order was created; 0 stands for no order. *)
Definition created_of (x : option (with_id OrderDoc.t)) : nat :=
  match x with
  | Some o => OrderDoc.created_at (data o)
  | None => 0%nat
  end.

(** A string made of white space only. *)
Fixpoint blank (s : string) : bool :=
  match s with
  | String c s' => is_space c && blank s'
  | EmptyString => true
  end.

(** Every phone stored in an address, and the phone an order is filed
    under, is in the international form. *)
Definition phones_normalised (db : Db.t) : Prop :=
  Forall (fun u => Forall (fun a => intl_shape (Address.phone a))
                          (addresses_of u)) (user db) /\
  Forall (fun o => intl_shape (OrderDoc.user_phone (fields o))
                   /\ intl_shape (Address.phone (OrderDoc.address (fields o))))
         (order db).

(** Each user of [old] is still there in [new], at the same place, with
    the same identifier, phone and name, and with its addresses as the
    beginning of its list. *)
Definition grows (old new : collection UserDoc.t) : Prop :=
  forall i u,
    nth_error old i = Some u ->
    exists u' extra,
      nth_error new i = Some u' /\ _id u' = _id u /\
      UserDoc.phone (fields u') = UserDoc.phone (fields u) /\
      UserDoc.name (fields u') = UserDoc.name (fields u) /\
      addresses_of u' = (addresses_of u ++ extra)%list.

End MoreNotions.

(** ** More sample data *)

Module MoreSamples.
Import PyStr Bson Schemas Db Main MainRest.

Definition order_of (k : nat) (phone status : string) (created updated : nat)
  : doc OrderDoc.t :=
  mk_doc (Samples.ids k)
    (OrderDoc.mk phone "Rama" [] Samples.home "Damascus" None status None
       (Some 24%nat) created updated).

Definition orders : collection OrderDoc.t :=
  [ order_of 0 "+963912345678" "Pending COD" 10 10;
    order_of 1 "+963912345678" "On Delivery" 20 40;
    order_of 2 "+963900000000" "On Delivery" 30 50;
    order_of 3 "+963912345678" "On Delivery" 5 60;
    order_of 4 "+963955555555" "Confirmed" 40 45 ].

Definition with_orders : Db.t := Db.mk Samples.catalog [Samples.rama] orders.

(** A user with two addresses that differ in phone and in street, and an
    address that has the phone of the first and the street of the second. *)
Definition elsewhere : Address.t :=
  Address.mk None "Rama" "+963900000000" "Homs" "Street 2" None.

Definition mixed : Address.t :=
  Address.mk None "Rama" "+963912345678" "Homs" "Street 2" None.

Definition rama_two : doc UserDoc.t :=
  mk_doc (Samples.ids 0)
    (UserDoc.mk "+963912345678" "Rama" (Some [Samples.home; elsewhere]) true
       1%nat 2%nat).

Definition with_rama_two : Db.t := Db.mk [] [rama_two] [].

End MoreSamples.

(** * Properties *)

Import PyStr Bson Schemas Db Main Notions.
Import MainRest MoreNotions.

Arguments ObjectId_of : simpl never.
Arguments validate_phone : simpl never.

(** ** Stripping *)

Lemma lstrip_first (s : string) (c : ascii) :
  first (lstrip s) = Some c -> is_space c = false.
Proof.
  induction s as [|a s IH]; simpl; [discriminate|].
  destruct (is_space a) eqn:Ha; [exact IH|].
  simpl. intros [= <-]. exact Ha.
Qed.

Lemma rstrip_last (s : string) (c : ascii) :
  last (rstrip s) = Some c -> is_space c = false.
Proof.
  induction s as [|a s IH]; simpl; [discriminate|].
  destruct (rstrip s) as [|b r] eqn:Hr.
  - destruct (is_space a) eqn:Ha; simpl; [discriminate|].
    intros [= <-]. exact Ha.
  - exact IH.
Qed.

Lemma rstrip_first (s : string) (c : ascii) :
  first (rstrip s) = Some c -> first s = Some c.
Proof.
  destruct s as [|a s]; simpl; [discriminate|].
  destruct (rstrip s); [destruct (is_space a)|]; simpl; congruence.
Qed.

Lemma lstrip_fix (s : string) :
  (forall c, first s = Some c -> is_space c = false) -> lstrip s = s.
Proof.
  destruct s as [|a s]; simpl; [reflexivity|].
  intros H. now rewrite (H a eq_refl).
Qed.

Lemma rstrip_fix (s : string) :
  (forall c, last s = Some c -> is_space c = false) -> rstrip s = s.
Proof.
  induction s as [|a s IH]; simpl; [reflexivity|].
  destruct s as [|b s].
  - intros H. simpl. now rewrite (H a eq_refl).
  - intros H. rewrite (IH H). reflexivity.
Qed.

Lemma strip_trimmed (s : string) : trimmed (strip s).
Proof.
  split; intros c Hc.
  - apply rstrip_first in Hc. now apply lstrip_first in Hc.
  - now apply rstrip_last in Hc.
Qed.

Lemma strip_fix (s : string) : trimmed s -> strip s = s.
Proof.
  intros [Hf Hl]. unfold strip. rewrite (lstrip_fix s Hf). now apply rstrip_fix.
Qed.

Lemma strip_idempotent (s : string) : strip (strip s) = strip s.
Proof. apply strip_fix, strip_trimmed. Qed.

(** ** Phone numbers *)

Lemma intl_shape_dec (v : string) :
  startswith v "+963" && ((len v =? 12) || (len v =? 13))%nat = true
  <-> intl_shape v.
Proof.
  unfold intl_shape.
  rewrite andb_true_iff, orb_true_iff, !Nat.eqb_eq. tauto.
Qed.

Lemma local_shape_dec (v : string) :
  startswith v "09" && (len v =? 10)%nat = true <-> local_shape v.
Proof.
  unfold local_shape. rewrite andb_true_iff, Nat.eqb_eq. tauto.
Qed.

Lemma validate_phone_fix (v : string) :
  trimmed v -> intl_shape v -> validate_phone v = Ok v.
Proof.
  intros Ht Hs. unfold validate_phone. rewrite (strip_fix v Ht).
  apply intl_shape_dec in Hs. now rewrite Hs.
Qed.

(** The normal form of a local number is trimmed and international. *)
Lemma local_normal_form (v : string) :
  trimmed v -> local_shape v ->
  trimmed ("+963" ++ tail v) /\ intl_shape ("+963" ++ tail v).
Proof.
  intros [_ Hl] [Hp Hn].
  do 10 (destruct v as [|? v]; [discriminate Hn|]).
  destruct v; [|discriminate Hn].
  repeat split.
  - simpl. now intros c [= <-].
  - exact Hl.
  - now right.
Qed.

(** C1 (as amended): the validator strips white space, then lets through
    a string that starts with [+963] and has 12 or 13 characters, unchanged,
    and a string that starts with [09] and has 10 characters, with [+963]
    in place of its first character; it rejects every other string.  So
    ["0912345678"] becomes ["+963912345678"], ["+963912345678"] is kept,
    and whatever is accepted is stored in a form that starts with [+963],
    has 12 or 13 characters and is a fixed point of the validator.  The
    characters after the prefix are not inspected. *)
Theorem validate_phone_normal_form :
  validate_phone "0912345678" = Ok "+963912345678" /\
  validate_phone "+963912345678" = Ok "+963912345678" /\
  forall s : string,
    match validate_phone s with
    | Ok r =>
        (intl_shape (strip s) /\ r = strip s
         \/ local_shape (strip s) /\ r = "+963" ++ tail (strip s))
        /\ intl_shape r /\ validate_phone r = Ok r
    | Raise e =>
        e = phone_error /\ ~ intl_shape (strip s) /\ ~ local_shape (strip s)
    end.
Proof.
  split; [reflexivity|]. split; [reflexivity|].
  intros s. unfold validate_phone at 1.
  pose proof (strip_trimmed s) as Ht.
  destruct (startswith (strip s) "+963"
            && ((len (strip s) =? 12) || (len (strip s) =? 13))%nat) eqn:Hi.
  - apply intl_shape_dec in Hi. repeat split; auto using validate_phone_fix.
    all: apply Hi.
  - assert (Hni : ~ intl_shape (strip s)).
    { intros H. apply intl_shape_dec in H. congruence. }
    destruct (startswith (strip s) "09" && (len (strip s) =? 10)%nat) eqn:Hl.
    + apply local_shape_dec in Hl.
      destruct (local_normal_form _ Ht Hl) as [Ht' Hi'].
      repeat split; auto using validate_phone_fix. all: apply Hi'.
    + repeat split; auto.
      intros H. apply local_shape_dec in H. congruence.
Qed.

(** C1 (as stated) fails: a string that is not a Syrian phone number is
    accepted, here [+963] followed by letters. *)
Lemma validate_phone_accepts_letters :
  ~ (forall s : string,
       spec_phone_shape s = false -> is_ok (validate_phone s) = false).
Proof.
  intros H. specialize (H "+963abcdefgh" eq_refl). discriminate H.
Qed.

(** ** The store *)

Section StoreFacts.
Context {A : Type}.
Variable q : doc A -> bool.

Lemma find_one_split (c : collection A) (d : doc A) :
  find_one q c = Some d ->
  exists pre post,
    c = (pre ++ d :: post)%list /\ find_one q pre = None /\ q d = true.
Proof.
  unfold find_one. induction c as [|x c IH]; simpl; [discriminate|].
  destruct (q x) eqn:Hx.
  - intros [= ->]. now exists [], c.
  - intros H. destruct (IH H) as (pre & post & -> & Hpre & Hd).
    exists (x :: pre), post. simpl. now rewrite Hx.
Qed.

Lemma find_one_app (pre post : collection A) :
  find_one q pre = None ->
  find_one q (pre ++ post)%list = find_one q post.
Proof.
  unfold find_one. induction pre as [|x pre IH]; simpl; [reflexivity|].
  destruct (q x); [discriminate|exact IH].
Qed.

Lemma update_one_none (set : A -> A) (c : collection A) :
  find_one q c = None -> update_one q set c = (c, 0%nat).
Proof.
  unfold find_one. induction c as [|x c IH]; simpl; [reflexivity|].
  destruct (q x); [discriminate|].
  intros H. now rewrite (IH H).
Qed.

Lemma update_one_app (set : A -> A) (pre post : collection A) :
  find_one q pre = None ->
  update_one q set (pre ++ post)%list =
  ((pre ++ fst (update_one q set post))%list, snd (update_one q set post)).
Proof.
  unfold find_one. induction pre as [|x pre IH]; simpl.
  - now destruct (update_one q set post).
  - destruct (q x); [discriminate|].
    intros H. now rewrite (IH H).
Qed.

Lemma update_one_some (set : A -> A) (pre post : collection A) (d : doc A) :
  find_one q pre = None -> q d = true ->
  update_one q set (pre ++ d :: post)%list =
  ((pre ++ mk_doc (_id d) (set (fields d)) :: post)%list, 1%nat).
Proof.
  intros Hpre Hd. rewrite (update_one_app _ _ _ Hpre). simpl.
  now rewrite Hd.
Qed.

(** [matched_count] tells whether a document matched. *)
Lemma update_one_matched (set : A -> A) (c : collection A) :
  snd (update_one q set c) =
  match find_one q c with Some _ => 1%nat | None => 0%nat end.
Proof.
  unfold find_one. induction c as [|x c IH]; simpl; [reflexivity|].
  destruct (q x); [reflexivity|].
  destruct (update_one q set c). exact IH.
Qed.

(** An update keeps the number of documents and their identifiers. *)
Lemma update_one_ids (set : A -> A) (c : collection A) :
  map _id (fst (update_one q set c)) = map _id c.
Proof.
  induction c as [|x c IH]; simpl; [reflexivity|].
  destruct (q x); [reflexivity|].
  destruct (update_one q set c). simpl in *. now rewrite IH.
Qed.
End StoreFacts.

Lemma eqb_refl (o : ObjectId) : Bson.eqb o o = true.
Proof. unfold Bson.eqb. apply String.eqb_refl. Qed.

Lemma eqb_eq (a b : ObjectId) : Bson.eqb a b = true <-> a = b.
Proof.
  unfold Bson.eqb. rewrite String.eqb_eq.
  destruct a, b; simpl. split; congruence.
Qed.

(** With unique identifiers, the document found under one query is the one
    an update by its identifier rewrites. *)
Lemma update_found {A : Type} (q : doc A -> bool) (set : A -> A)
    (c : collection A) (d : doc A) :
  NoDup (map _id c) -> find_one q c = Some d ->
  exists pre post,
    c = (pre ++ d :: post)%list /\ find_one q pre = None /\
    update_one (id_is (_id d)) set c =
    ((pre ++ mk_doc (_id d) (set (fields d)) :: post)%list, 1%nat).
Proof.
  intros Hnd Hf. destruct (find_one_split q c d Hf) as (pre & post & -> & Hpre & Hd).
  exists pre, post. repeat split; auto.
  apply update_one_some; [|apply eqb_refl].
  rewrite map_app in Hnd. simpl in Hnd. apply NoDup_remove_2 in Hnd.
  unfold find_one. destruct (List.find _ pre) as [x|] eqn:Hx; [|reflexivity].
  exfalso. apply Hnd. apply find_some in Hx as [Hin Hid].
  apply eqb_eq in Hid. apply in_or_app. left. rewrite <- Hid.
  now apply in_map.
Qed.

(** ** Identifiers that are not well formed *)

(** C6: a product identifier that is not a well-formed ObjectId, such as
    ["abc"], makes [get_product] raise [InvalidId], which no handler
    catches: the answer is a server error (500), not a client error. *)
Theorem get_product_malformed_id (db : Db.t) :
  get_product db "abc" = Raise (InvalidId "abc") /\
  http_status (InvalidId "abc") = 500%nat /\
  client_error (InvalidId "abc") = false.
Proof. repeat split. Qed.

(** The part of C6 the code does meet: a well-formed identifier that no
    product carries is answered with 404. *)
Lemma get_product_not_found (db : Db.t) (product_id : string) (oid : ObjectId) :
  ObjectId_of product_id = Ok oid ->
  find_one (id_is oid) (product db) = None ->
  get_product db product_id = Raise (HTTPException 404 "Product not found").
Proof. intros Ho Hf. unfold get_product. rewrite Ho. simpl. now rewrite Hf. Qed.

Lemma get_product_found (db : Db.t) (product_id : string) (oid : ObjectId)
    (d : doc ProductDoc.t) :
  ObjectId_of product_id = Ok oid ->
  find_one (id_is oid) (product db) = Some d ->
  get_product db product_id = Ok (Some (mk_with_id (str oid) (fields d))).
Proof.
  intros Ho Hf. unfold get_product. rewrite Ho. simpl. rewrite Hf. simpl.
  apply find_one_split in Hf as (_ & _ & _ & _ & Hid).
  apply eqb_eq in Hid. now rewrite Hid.
Qed.

(** ** Status updates *)

Lemma set_order_same (db : Db.t) : set_order db (order db) = db.
Proof. now destruct db. Qed.

Lemma set_user_same (db : Db.t) : set_user db (user db) = db.
Proof. now destruct db. Qed.

(** C4: with an allowed status and the order identifier ["abc"], which is
    not a well-formed ObjectId and matches no stored order, the handler
    raises [InvalidId] (a server error) instead of answering 404. *)
Theorem update_order_status_malformed_id (now : nat -> datetime) (db : Db.t) :
  update_order_status now db "abc" (StatusUpdateIn.mk "Confirmed" None None)
  = (Raise (InvalidId "abc"), db) /\
  http_status (InvalidId "abc") = 500%nat.
Proof. split; reflexivity. Qed.

(** The parts of C4 the code does meet. *)

Lemma update_order_status_invalid (now : nat -> datetime) (db : Db.t)
    (order_id : string) (body : StatusUpdateIn.t) :
  str_in (StatusUpdateIn.status body) OrderStatus = false ->
  update_order_status now db order_id body
  = (Raise (HTTPException 400 "Invalid status"), db).
Proof.
  intros H. unfold update_order_status.
  replace (str_in (StatusUpdateIn.status body) allowed) with false; [reflexivity|].
  rewrite <- H. unfold str_in, allowed, OrderStatus. simpl.
  repeat (destruct (String.eqb _ _); simpl; try reflexivity).
Qed.

Lemma allowed_is_OrderStatus (s : string) :
  str_in s allowed = str_in s OrderStatus.
Proof.
  unfold str_in, allowed, OrderStatus. simpl.
  repeat (destruct (String.eqb _ _); simpl; try reflexivity).
Qed.

(** With a delivery date in the body the update cannot be encoded: once
    the status and the identifier are accepted the handler raises
    [InvalidDocument], whether an order matches or not, and writes
    nothing. *)
Lemma update_order_status_date (now : nat -> datetime) (db : Db.t)
    (order_id : string) (body : StatusUpdateIn.t) (oid : ObjectId) (d : date) :
  str_in (StatusUpdateIn.status body) OrderStatus = true ->
  ObjectId_of order_id = Ok oid ->
  StatusUpdateIn.expected_delivery_date body = Some d ->
  update_order_status now db order_id body
  = (Raise (InvalidDocument "expected_delivery_date"), db).
Proof.
  intros Hs Ho Hd. unfold update_order_status, encode_upd.
  now rewrite allowed_is_OrderStatus, Hs, Ho, Hd.
Qed.

Lemma update_order_status_not_found (now : nat -> datetime) (db : Db.t)
    (order_id : string) (body : StatusUpdateIn.t) (oid : ObjectId) :
  str_in (StatusUpdateIn.status body) OrderStatus = true ->
  ObjectId_of order_id = Ok oid ->
  StatusUpdateIn.expected_delivery_date body = None ->
  find_one (id_is oid) (order db) = None ->
  update_order_status now db order_id body
  = (Raise (HTTPException 404 "Order not found"), db).
Proof.
  intros Hs Ho Hd Hf. unfold update_order_status, encode_upd.
  rewrite allowed_is_OrderStatus, Hs, Ho, Hd. simpl.
  rewrite (update_one_none _ _ _ Hf). simpl. now rewrite set_order_same.
Qed.

Lemma update_order_status_found (now : nat -> datetime) (db : Db.t)
    (order_id : string) (body : StatusUpdateIn.t) (oid : ObjectId)
    (pre post : collection OrderDoc.t) (d : doc OrderDoc.t) :
  str_in (StatusUpdateIn.status body) OrderStatus = true ->
  ObjectId_of order_id = Ok oid ->
  StatusUpdateIn.expected_delivery_date body = None ->
  order db = (pre ++ d :: post)%list ->
  find_one (id_is oid) pre = None -> id_is oid d = true ->
  let d' := mk_doc (_id d) (set_upd body (now 0%nat) (fields d)) in
  update_order_status now db order_id body
  = (Ok (order_doc_with_id (Some d')),
     set_order db (pre ++ d' :: post)%list).
Proof.
  intros Hs Ho Hdate Hc Hpre Hd d'. unfold update_order_status, encode_upd.
  rewrite allowed_is_OrderStatus, Hs, Ho, Hdate, Hc. simpl.
  rewrite (update_one_some _ _ _ _ _ Hpre Hd). simpl.
  rewrite (find_one_app _ _ _ Hpre). unfold find_one. simpl.
  fold d'. unfold id_is in *. simpl. now rewrite Hd.
Qed.

(** What the update writes: the status, the time stamp and the optional
    keys that were given; every other key is kept. *)
Lemma set_upd_keys (body : StatusUpdateIn.t) (t : datetime) (o : OrderDoc.t) :
  let o' := set_upd body t o in
  OrderDoc.status o' = StatusUpdateIn.status body /\
  OrderDoc.updated_at o' = t /\
  OrderDoc.admin_note o' =
    match StatusUpdateIn.admin_note body with
    | Some n => Some n
    | None => OrderDoc.admin_note o
    end /\
  OrderDoc.expected_delivery_date o' =
    match StatusUpdateIn.expected_delivery_date body with
    | Some n => Some n
    | None => OrderDoc.expected_delivery_date o
    end /\
  OrderDoc.user_phone o' = OrderDoc.user_phone o /\
  OrderDoc.user_name o' = OrderDoc.user_name o /\
  OrderDoc.items o' = OrderDoc.items o /\
  OrderDoc.address o' = OrderDoc.address o /\
  OrderDoc.city o' = OrderDoc.city o /\
  OrderDoc.notes o' = OrderDoc.notes o /\
  OrderDoc.created_at o' = OrderDoc.created_at o.
Proof. repeat split. Qed.

(** ** Order creation *)

(** The loop fails with 400, naming the identifier, at the first line whose
    well-formed identifier no product carries. *)
Lemma items_out_unknown (products : collection ProductDoc.t)
    (pre post : list OrderItemIn.t) (it : OrderItemIn.t)
    (snaps : list ItemDict.t) (oid : ObjectId) :
  items_out products pre = Ok snaps ->
  ObjectId_of (OrderItemIn.product_id it) = Ok oid ->
  find_one (id_is oid) products = None ->
  items_out products (pre ++ it :: post)
  = Raise (HTTPException 400 ("Invalid product: " ++ OrderItemIn.product_id it)).
Proof.
  intros Hpre Ho Hf. revert snaps Hpre.
  induction pre as [|x pre IH]; simpl; intros snaps Hpre.
  - rewrite Ho. simpl. now rewrite Hf.
  - destruct (ObjectId_of (OrderItemIn.product_id x)) as [a|]; simpl in *;
      [|discriminate Hpre].
    destruct (find_one (id_is a) products); [|discriminate Hpre].
    destruct (items_out products pre) eqn:Hr; simpl in *; [|discriminate Hpre].
    now rewrite (IH _ eq_refl).
Qed.

(** Whenever [create_order] raises, the store is as it was. *)
Lemma create_order_raise_keeps_db (now : nat -> datetime)
    (gen : nat -> ObjectId) (db : Db.t) (body : OrderCreateIn.t) (e : exn) :
  fst (create_order now gen db body) = Raise e ->
  snd (create_order now gen db body) = db.
Proof.
  unfold create_order.
  destruct (items_out _ _); [|reflexivity].
  destruct (Address.make _ _ _ _ _ _); [|reflexivity].
  destruct (Order.make _ _ _ _ _ _ _); [|reflexivity].
  discriminate.
Qed.

Lemma create_order_unknown_product (now : nat -> datetime)
    (gen : nat -> ObjectId) (db : Db.t) (body : OrderCreateIn.t)
    (pre post : list OrderItemIn.t) (it : OrderItemIn.t)
    (snaps : list ItemDict.t) (oid : ObjectId) :
  OrderCreateIn.items body = (pre ++ it :: post)%list ->
  items_out (product db) pre = Ok snaps ->
  ObjectId_of (OrderItemIn.product_id it) = Ok oid ->
  find_one (id_is oid) (product db) = None ->
  create_order now gen db body
  = (Raise (HTTPException 400 ("Invalid product: " ++ OrderItemIn.product_id it)),
     db).
Proof.
  intros Hb Hpre Ho Hf. unfold create_order.
  now rewrite Hb, (items_out_unknown _ _ _ _ _ _ Hpre Ho Hf).
Qed.

(** C2: an order whose only line names the product ["abc"], which is not a
    well-formed ObjectId and so resolves to no product, is not answered
    with 400: [InvalidId] escapes the handler (a server error).  No order
    is inserted. *)
Theorem create_order_malformed_id (now : nat -> datetime)
    (gen : nat -> ObjectId) (db : Db.t) (full_name phone city street : string)
    (notes address_id : option string) :
  create_order now gen db
    (OrderCreateIn.mk full_name phone city street notes address_id
       [OrderItemIn.mk "abc" 1])
  = (Raise (InvalidId "abc"), db) /\
  http_status (InvalidId "abc") = 500%nat.
Proof. split; reflexivity. Qed.

(** The dictionaries carry the product's ObjectId under [product_id],
    where the [OrderItem] schema wants a [str]: once every line is resolved
    and the phone is accepted, an order with at least one line is refused by
    the [Order] schema, and nothing is stored. *)
Lemma create_order_with_lines_raises (now : nat -> datetime)
    (gen : nat -> ObjectId) (db : Db.t) (body : OrderCreateIn.t)
    (snap : ItemDict.t) (snaps : list ItemDict.t) (normal : string) :
  items_out (product db) (OrderCreateIn.items body) = Ok (snap :: snaps) ->
  validate_phone (OrderCreateIn.phone body) = Ok normal ->
  create_order now gen db body = (Raise (ValidationError "product_id"), db).
Proof.
  intros Hi Hp. unfold create_order, Address.make. rewrite Hi, Hp. simpl.
  assert (Hs : exists o, ItemDict.product_id snap = VOid o).
  { destruct (OrderCreateIn.items body) as [|it its]; simpl in Hi;
      [discriminate Hi|].
    destruct (ObjectId_of (OrderItemIn.product_id it)) as [a|]; simpl in Hi;
      [|discriminate Hi].
    destruct (find_one (id_is a) (product db)) as [prod|]; [|discriminate Hi].
    destruct (items_out (product db) its); simpl in Hi; [|discriminate Hi].
    injection Hi as <- _. now eexists. }
  destruct Hs as (o & Hs). unfold Order.make. simpl.
  unfold OrderItem.make. now rewrite Hs.
Qed.

(** C10: when every line of an order names a stored product, the loop that
    builds the item dictionaries ends with one dictionary for each line,
    and the image of each is the first image of its product, or [None] when
    the product has no [images] key or an empty list. *)
Theorem items_out_total (products : collection ProductDoc.t)
    (its : list OrderItemIn.t) :
  Forall (fun it => exists prod, resolves products it prod) its ->
  exists snaps,
    items_out products its = Ok snaps /\
    Forall2
      (fun it snap =>
         exists prod,
           resolves products it prod /\
           ItemDict.image snap
           = hd_error (get_default (ProductDoc.images (fields prod)) []))
      its snaps.
Proof.
  induction 1 as [|it its [prod Hres] _ IH].
  - exists []. split; [reflexivity|constructor].
  - destruct IH as (snaps & Hs & Hall).
    pose proof Hres as (oid & Ho & Hf).
    exists (snapshot it prod :: snaps). split.
    + simpl. rewrite Ho. simpl. rewrite Hf, Hs. reflexivity.
    + constructor; [|exact Hall].
      exists prod. split; [exact Hres|].
      simpl. now destruct (ProductDoc.images (fields prod)) as [[|]|].
Qed.

(** ** The address book *)

Lemma same_key_true (phone street : string) (a : Address.t) :
  same_key phone street a = true
  <-> Address.phone a = phone /\ Address.street a = street.
Proof.
  unfold same_key. now rewrite andb_true_iff, !String.eqb_eq.
Qed.

Lemma existsb_same_key (body : Address.t) (stored : list Address.t) :
  existsb (same_key (Address.phone body) (Address.street body)) stored = true
  <-> exists a, In a stored /\ Address.phone a = Address.phone body
                /\ Address.street a = Address.street body.
Proof.
  rewrite existsb_exists. split; intros (a & Hin & H); exists a; split; auto.
  all: now apply same_key_true.
Qed.

(** What the route does when no user is stored under the phone of the
    path: it stores one more user, whose phone is the phone of the path as
    it was sent, whose name is the name of the body, and whose address list
    holds the body alone, its phone normalised by the validator. *)
Lemma post_address_creates_user (now : nat -> datetime)
    (gen : nat -> ObjectId) (db : Db.t) (phone : string) (raw : Address.t)
    (normal : string) :
  find_one (phone_is phone) (user db) = None ->
  validate_phone (Address.phone raw) = Ok normal ->
  exists u a,
    post_address now gen db phone raw
    = (Ok ok, set_user db (user db ++ [mk_doc (gen 0%nat) u])%list) /\
    UserDoc.phone u = phone /\
    UserDoc.name u = Address.full_name raw /\
    UserDoc.addresses u = Some [a] /\
    Address.phone a = normal /\
    Address.full_name a = Address.full_name raw /\
    Address.city a = Address.city raw /\
    Address.street a = Address.street raw /\
    Address.notes a = Address.notes raw.
Proof.
  intros Hf Hv. unfold post_address, Address.make. rewrite Hv. simpl.
  unfold add_address. rewrite Hf.
  eexists. eexists. split; [reflexivity|]. simpl. repeat split.
Qed.

(** C7: the user that [add_address] creates is stored under the phone of
    the path as it was sent, not under the normalised phone of the address.
    With the path and the body both giving [0912345678], the new user has
    the phone [0912345678], which is not in the [+963] form the [User]
    schema describes, while its one address carries [+963912345678].  The
    order route files and looks up the same customer under the normalised
    phone, so an order placed with the same phone then creates a second
    user. *)
Theorem add_address_user_phone_raw :
  let raw := Address.mk None "Rama" "0912345678" "Damascus" "Street 1" None in
  let db1 := snd (post_address Samples.clock Samples.ids Db.empty
                    "0912345678" raw) in
  let db2 := snd (create_order Samples.clock (fun k => Samples.ids (k + 2))
                    db1 Samples.empty_order) in
  fst (post_address Samples.clock Samples.ids Db.empty "0912345678" raw)
  = Ok ok /\
  validate_phone "0912345678" = Ok "+963912345678" /\
  map (fun u => (UserDoc.phone (fields u),
                 option_map (map Address.phone) (UserDoc.addresses (fields u))))
      (user db1)
  = [("0912345678", Some ["+963912345678"])] /\
  map (fun u => UserDoc.phone (fields u)) (user db2)
  = ["0912345678"; "+963912345678"].
Proof. repeat split. Qed.

(** The address is appended exactly when no stored address has both its
    phone and its street. *)
Lemma add_address_appends (now : nat -> datetime) (gen : nat -> ObjectId)
    (db : Db.t) (phone : string) (body : Address.t) (u : doc UserDoc.t) :
  NoDup (map _id (user db)) ->
  find_one (phone_is phone) (user db) = Some u ->
  existsb (same_key (Address.phone body) (Address.street body))
          (addresses_of u) = false ->
  exists pre post,
    user db = (pre ++ u :: post)%list /\
    find_one (phone_is phone) pre = None /\
    add_address now gen db phone body
    = (Ok ok,
       set_user db
         (pre ++ mk_doc (_id u)
                   (set_addresses (addresses_of u ++ [body])%list (now 0%nat)
                      (fields u)) :: post)%list).
Proof.
  intros Hnd Hf Hex.
  destruct (update_found _ (set_addresses (addresses_of u ++ [body])%list
                              (now 0%nat)) _ _ Hnd Hf)
    as (pre & post & Hc & Hpre & Hup).
  exists pre, post. repeat split; auto.
  unfold add_address. rewrite Hf, Hex. simpl. now rewrite Hup.
Qed.

(** C5: the duplicate key is the pair of phone and street.  For a stored
    user, an address whose phone and street both equal those of one stored
    address changes nothing, whatever its other fields; an address that
    differs from each stored address in its phone or in its street (so
    also one that has the phone of one stored address and the street of
    another) is appended to the list, and the update time stamp is set
    anew.  (The identifiers of the stored users are distinct, as the store
    guarantees.) *)
Theorem add_address_dedup (now : nat -> datetime) (gen : nat -> ObjectId)
    (db : Db.t) (phone : string) (body : Address.t) (u : doc UserDoc.t) :
  NoDup (map _id (user db)) ->
  find_one (phone_is phone) (user db) = Some u ->
  ((exists a, In a (addresses_of u)
              /\ Address.phone a = Address.phone body
              /\ Address.street a = Address.street body) ->
   add_address now gen db phone body = (Ok ok, db)) /\
  ((forall a, In a (addresses_of u) ->
              Address.phone a <> Address.phone body
              \/ Address.street a <> Address.street body) ->
   exists u',
     fst (add_address now gen db phone body) = Ok ok /\
     find_one (phone_is phone) (user (snd (add_address now gen db phone body)))
     = Some u' /\
     _id u' = _id u /\
     addresses_of u' = (addresses_of u ++ [body])%list /\
     UserDoc.updated_at (fields u') = now 0%nat /\
     map _id (user (snd (add_address now gen db phone body)))
     = map _id (user db)).
Proof.
  intros Hnd Hf. split.
  - intros Hdup. apply existsb_same_key in Hdup.
    unfold add_address. now rewrite Hf, Hdup.
  - intros Hnew.
    assert (Hex : existsb (same_key (Address.phone body) (Address.street body))
                          (addresses_of u) = false).
    { apply not_true_is_false. intros H.
      apply existsb_same_key in H as (a & Hin & Hp & Hs).
      destruct (Hnew a Hin) as [Hn|Hn]; now apply Hn. }
    destruct (add_address_appends now gen db phone body u Hnd Hf Hex)
      as (pre & post & Hc & Hpre & Hadd).
    rewrite Hadd. simpl.
    eexists. split; [reflexivity|]. split.
    + rewrite (find_one_app _ _ _ Hpre). unfold find_one. simpl.
      replace (phone_is phone _) with true; [reflexivity|].
      apply find_one_split in Hf as (_ & _ & _ & _ & Hq).
      symmetry. exact Hq.
    + simpl. repeat split.
      rewrite Hc, !map_app. reflexivity.
Qed.

Lemma add_address_dedup_witness :
  (add_address Samples.clock Samples.ids MoreSamples.with_rama_two
     "+963912345678" Samples.home_bis
   = (Ok ok, MoreSamples.with_rama_two)) /\
  exists u',
    find_one (phone_is "+963912345678")
      (user (snd (add_address Samples.clock Samples.ids
                    MoreSamples.with_rama_two "+963912345678"
                    MoreSamples.mixed)))
    = Some u' /\
    addresses_of u'
    = [Samples.home; MoreSamples.elsewhere; MoreSamples.mixed] /\
    UserDoc.updated_at (fields u') = Samples.clock 0%nat.
Proof.
  assert (Hnd : NoDup (map _id (user MoreSamples.with_rama_two))).
  { repeat constructor. simpl. tauto. }
  assert (Hf : find_one (phone_is "+963912345678")
                 (user MoreSamples.with_rama_two)
               = Some MoreSamples.rama_two) by reflexivity.
  split.
  - apply (proj1 (add_address_dedup Samples.clock Samples.ids
                    MoreSamples.with_rama_two "+963912345678"
                    Samples.home_bis MoreSamples.rama_two Hnd Hf)).
    exists Samples.home. simpl. auto.
  - destruct (proj2 (add_address_dedup Samples.clock Samples.ids
                       MoreSamples.with_rama_two "+963912345678"
                       MoreSamples.mixed MoreSamples.rama_two Hnd Hf))
      as (u' & _ & H1 & _ & H2 & H3 & _).
    + simpl. intros a [<-|[<-|[]]]; [right|left]; discriminate.
    + exists u'. auto.
Defined.

(** ** The status of stored orders *)

Lemma update_one_Forall {A : Type} (P : doc A -> Prop) (q : doc A -> bool)
    (set : A -> A) (c : collection A) :
  (forall d, P (mk_doc (_id d) (set (fields d)))) ->
  Forall P c -> Forall P (fst (update_one q set c)).
Proof.
  intros Hset. induction 1 as [|x c Hx Hc IH]; simpl; [constructor|].
  destruct (q x).
  - constructor; [apply Hset|exact Hc].
  - destruct (update_one q set c). simpl in *. now constructor.
Qed.

Lemma str_in_In (s : string) (l : list string) :
  str_in s l = true <-> In s l.
Proof.
  unfold str_in. rewrite existsb_exists. split.
  - intros (x & Hin & Heq). apply String.eqb_eq in Heq. now subst.
  - intros Hin. exists s. split; [exact Hin|apply String.eqb_refl].
Qed.

Lemma Order_make_status (user_phone user_name : string)
    (items : list ItemDict.t) (address : Address.t) (city : string)
    (notes : option string) (status : string) (o : Order.t) :
  Order.make user_phone user_name items address city notes status = Ok o ->
  Order.status o = status /\ Order.admin_note o = None
  /\ Order.expected_delivery_date o = None.
Proof.
  unfold Order.make.
  destruct (Order.make_items items); simpl; [|discriminate].
  destruct (check "status" _); simpl; [|discriminate].
  intros [= <-]. repeat split.
Qed.

(** An order that is created is appended with the status [Pending COD],
    and the answer carries that status. *)
Lemma create_order_appends (now : nat -> datetime) (gen : nat -> ObjectId)
    (db : Db.t) (body : OrderCreateIn.t) (a : OrderAnswer.t) (db' : Db.t) :
  create_order now gen db body = (Ok a, db') ->
  OrderAnswer.status a = "Pending COD" /\
  exists o,
    order db' = (order db ++ [mk_doc (gen 0%nat) o])%list /\
    OrderDoc.status o = "Pending COD" /\
    OrderAnswer.id a = str (gen 0%nat).
Proof.
  unfold create_order.
  destruct (items_out _ _); [|discriminate].
  destruct (Address.make _ _ _ _ _ _); [|discriminate].
  destruct (Order.make _ _ _ _ _ _ _) as [o|] eqn:Ho; [|discriminate].
  apply Order_make_status in Ho as (Hs & _).
  intros [= <- <-]. split; [reflexivity|].
  eexists. split; [reflexivity|]. split; [exact Hs|reflexivity].
Qed.

Lemma create_order_invariant (now : nat -> datetime) (gen : nat -> ObjectId)
    (db : Db.t) (body : OrderCreateIn.t) :
  status_invariant db -> status_invariant (snd (create_order now gen db body)).
Proof.
  intros Hinv.
  destruct (create_order now gen db body) as [[a|e] db'] eqn:Hc.
  - apply create_order_appends in Hc as (_ & o & Ho & Hs & _).
    unfold status_invariant. simpl. rewrite Ho.
    apply Forall_app. split; [exact Hinv|].
    constructor; [|constructor]. simpl. rewrite Hs. simpl. auto.
  - pose proof (create_order_raise_keeps_db now gen db body e) as H.
    rewrite Hc in H. simpl in *. now rewrite H.
Qed.

Lemma update_order_status_invariant (now : nat -> datetime) (db : Db.t)
    (order_id : string) (body : StatusUpdateIn.t) :
  status_invariant db ->
  status_invariant (snd (update_order_status now db order_id body)).
Proof.
  intros Hinv. unfold update_order_status.
  destruct (str_in (StatusUpdateIn.status body) allowed) eqn:Hs; simpl;
    [|exact Hinv].
  destruct (ObjectId_of order_id) as [oid|]; [|exact Hinv].
  destruct (encode_upd body); [|exact Hinv].
  assert (Hnew : status_invariant
                   (set_order db
                      (fst (update_one (id_is oid)
                              (set_upd body (now 0%nat)) (order db))))).
  { unfold status_invariant. simpl. apply update_one_Forall; [|exact Hinv].
    intros d. rewrite allowed_is_OrderStatus in Hs.
    apply str_in_In in Hs. exact Hs. }
  destruct (update_one _ _ _) as [orders n]. simpl in Hnew.
  destruct (n =? 0)%nat; exact Hnew.
Qed.

Lemma seed_products_orders (now : nat -> datetime) (gen : nat -> ObjectId)
    (env : env_rate) (db : Db.t) (force : bool) :
  order (snd (seed_products now gen env db force)) = order db /\
  user (snd (seed_products now gen env db force)) = user db.
Proof.
  unfold seed_products.
  destruct ((0 <? _)%nat && negb force); [now split|].
  destruct (seed_docs _ _ _); now split.
Qed.

Lemma add_address_orders (now : nat -> datetime) (gen : nat -> ObjectId)
    (db : Db.t) (phone : string) (body : Address.t) :
  order (snd (add_address now gen db phone body)) = order db /\
  product (snd (add_address now gen db phone body)) = product db.
Proof.
  unfold add_address.
  destruct (find_one _ _); [|now split].
  destruct (negb _); now split.
Qed.

Lemma post_address_orders (now : nat -> datetime) (gen : nat -> ObjectId)
    (db : Db.t) (phone : string) (raw : Address.t) :
  order (snd (post_address now gen db phone raw)) = order db.
Proof.
  unfold post_address.
  destruct (Address.make _ _ _ _ _ _); [apply add_address_orders|reflexivity].
Qed.

Lemma step_invariant (now : nat -> datetime) (gen : nat -> ObjectId)
    (db : Db.t) (r : request) :
  status_invariant db -> status_invariant (step now gen db r).
Proof.
  intros Hinv. destruct r as [env force|phone raw|body|order_id body]; simpl.
  - unfold status_invariant.
    now rewrite (proj1 (seed_products_orders now gen env db force)).
  - unfold status_invariant. now rewrite post_address_orders.
  - unfold post_order. destruct (forallb _ _); [|exact Hinv].
    now apply create_order_invariant.
  - now apply update_order_status_invariant.
Qed.

(** C9: in every store the service reaches from the empty one, whatever
    the requests, the clock and the generated identifiers were, every order
    has one of the six statuses: an order is created with [Pending COD] and
    a status update writes a status of the enumeration only. *)
Theorem reachable_status_invariant (db : Db.t) :
  reachable db -> status_invariant db.
Proof.
  induction 1 as [|now gen db r _ IH].
  - constructor.
  - now apply step_invariant.
Qed.

Lemma reachable_status_invariant_witness :
  let db1 := step Samples.clock Samples.ids Db.empty
               (PostOrder Samples.empty_order) in
  let db2 := step Samples.clock Samples.ids db1
               (PatchStatus (str (Samples.ids 0%nat))
                  (StatusUpdateIn.mk "Delivered" (Some "left at the door") None)) in
  map (fun d => OrderDoc.status (fields d)) (order db2) = ["Delivered"] /\
  status_invariant db2.
Proof.
  split; [reflexivity|].
  apply (reachable_status_invariant
           (step Samples.clock Samples.ids
              (step Samples.clock Samples.ids Db.empty
                 (PostOrder Samples.empty_order))
              (PatchStatus (str (Samples.ids 0%nat))
                 (StatusUpdateIn.mk "Delivered" (Some "left at the door") None)))).
  apply reach_step, reach_step, reach_empty.
Defined.

(** ** Seeding *)

Lemma int_of_half_multiples (n rate : Z) :
  (0 <= n)%Z -> (0 <= rate)%Z ->
  int_of_float (float_mul_int (n # 2) rate) = (n * rate / 2)%Z.
Proof.
  intros Hn Hr. unfold int_of_float, float_mul_int. simpl.
  apply Z.quot_div_nonneg; nia.
Qed.

Lemma seed_docs_prices (now : nat -> datetime) (rate : Z) :
  (0 <= rate)%Z ->
  exists docs,
    seed_docs now 0 (seed rate) = Ok docs /\
    map (fun d => (ProductDoc.name d, ProductDoc.price_usd d,
                   ProductDoc.price_syp d)) docs
    = [ ("Handmade Necklace 1", Some (5 # 2), Some (5 * rate / 2)%Z);
        ("Handmade Necklace 2", Some (5 # 2), Some (5 * rate / 2)%Z);
        ("Handmade Bracelet 1", Some (3 # 2), Some (3 * rate / 2)%Z);
        ("Handmade Earrings 1", Some (3 # 2), Some (3 * rate / 2)%Z);
        ("Handmade Ring 1", Some (inject_Z 0), Some 0%Z) ].
Proof.
  intros Hr.
  assert (H5 : (0 <=? 5 * rate / 2)%Z = true)
    by (apply Z.leb_le, Z.div_pos; lia).
  assert (H3 : (0 <=? 3 * rate / 2)%Z = true)
    by (apply Z.leb_le, Z.div_pos; lia).
  unfold seed, seed_entry, priced.
  rewrite !int_of_half_multiples by lia.
  unfold seed_docs, Product.make. cbn [Product.k_category Product.k_price_syp
    Product.k_price_usd snd fst]. rewrite H5, H3.
  eexists. split; reflexivity.
Qed.

Lemma with_ids_map {A B : Type} (f : doc A -> B) (g : A -> B)
    (gen : nat -> ObjectId) (k : nat) (docs : list A) :
  (forall o a, f (mk_doc o a) = g a) ->
  map f (with_ids gen k docs) = map g docs.
Proof.
  intros H. revert k. induction docs as [|a docs IH]; intros k; simpl;
    [reflexivity|].
  now rewrite H, IH.
Qed.

(** C3 (as amended): with a rate that is not negative (and small enough
    for the float product to be exact), seeding a catalog that is not empty
    without [force] changes nothing and reports the number of products;
    otherwise the catalog becomes exactly the five sample products, the
    price in pounds being the integer part of the price in dollars times
    the rate (the fraction is dropped, not rounded), and both prices of the
    ring being 0.  Users and orders are untouched. *)
Theorem seed_products_truncates (now : nat -> datetime) (gen : nat -> ObjectId)
    (env : env_rate) (db : Db.t) (force : bool) :
  (product db <> [] -> force = false ->
   seed_products now gen env db force
   = (Ok (SeedAnswer.mk "exists" (List.length (product db))), db)) /\
  ((0 <= usd_to_syp_rate env <= rate_exact)%Z ->
   product db = [] \/ force = true ->
   fst (seed_products now gen env db force) = Ok (SeedAnswer.mk "seeded" 5)
   /\ map prices (product (snd (seed_products now gen env db force)))
      = [ ("Handmade Necklace 1", Some (5 # 2),
           Some (5 * usd_to_syp_rate env / 2)%Z);
          ("Handmade Necklace 2", Some (5 # 2),
           Some (5 * usd_to_syp_rate env / 2)%Z);
          ("Handmade Bracelet 1", Some (3 # 2),
           Some (3 * usd_to_syp_rate env / 2)%Z);
          ("Handmade Earrings 1", Some (3 # 2),
           Some (3 * usd_to_syp_rate env / 2)%Z);
          ("Handmade Ring 1", Some (inject_Z 0), Some 0%Z) ]
   /\ user (snd (seed_products now gen env db force)) = user db
   /\ order (snd (seed_products now gen env db force)) = order db).
Proof.
  split.
  - intros Hne ->. unfold seed_products, count_documents.
    destruct (product db) as [|d c] eqn:Hp; [contradiction|reflexivity].
  - intros [Hr _] Hcase. unfold seed_products, count_documents.
    assert (Hguard : (0 <? List.length (product db))%nat && negb force = false).
    { destruct Hcase as [-> | ->]; [reflexivity|apply andb_false_r]. }
    rewrite Hguard.
    destruct (seed_docs_prices now _ Hr) as (docs & -> & Hprices).
    simpl fst. simpl snd. unfold set_product, insert_many, delete_many. simpl.
    assert (Hlen : List.length docs = 5%nat).
    { rewrite <- (length_map (fun d => (ProductDoc.name d, ProductDoc.price_usd d,
                                        ProductDoc.price_syp d)) docs).
      now rewrite Hprices. }
    rewrite Hlen. split; [reflexivity|]. split; [|split; reflexivity].
    etransitivity; [|exact Hprices]. now apply with_ids_map.
Qed.

Lemma seed_products_truncates_witness :
  seed_products Samples.clock Samples.ids (IntLiteral 15001)
    Samples.with_catalog false
  = (Ok (SeedAnswer.mk "exists" 3), Samples.with_catalog) /\
  fst (seed_products Samples.clock Samples.ids (IntLiteral 15001)
         Samples.with_catalog true) = Ok (SeedAnswer.mk "seeded" 5) /\
  map prices (product (snd (seed_products Samples.clock Samples.ids
                              (IntLiteral 15001) Samples.with_catalog true)))
  = [ ("Handmade Necklace 1", Some (5 # 2), Some 37502%Z);
      ("Handmade Necklace 2", Some (5 # 2), Some 37502%Z);
      ("Handmade Bracelet 1", Some (3 # 2), Some 22501%Z);
      ("Handmade Earrings 1", Some (3 # 2), Some 22501%Z);
      ("Handmade Ring 1", Some (inject_Z 0), Some 0%Z) ].
Proof.
  assert (Hrate : (0 <= usd_to_syp_rate (IntLiteral 15001) <= rate_exact)%Z)
    by (unfold rate_exact; simpl; lia).
  split.
  - apply (proj1 (seed_products_truncates Samples.clock Samples.ids
                    (IntLiteral 15001) Samples.with_catalog false));
      [discriminate|reflexivity].
  - destruct (proj2 (seed_products_truncates Samples.clock Samples.ids
                       (IntLiteral 15001) Samples.with_catalog true)
                    Hrate (or_intror eq_refl)) as (H1 & H2 & _).
    split; [exact H1|exact H2].
Defined.

(** C3 (as stated) fails: at the rate 3 the necklace of 2.5 dollars is
    stored with 7 pounds, and 2.5 times 3 rounds to 8 (under either rule
    for a tie). *)
Lemma seed_products_does_not_round :
  let db' := snd (seed_products Samples.clock Samples.ids (IntLiteral 3)
                    Db.empty true) in
  (exists d, In d (product db')
             /\ ProductDoc.price_usd (fields d) = Some (5 # 2)
             /\ ProductDoc.price_syp (fields d) = Some 7%Z)
  /\ py_round (float_mul_int (5 # 2) 3) = 8%Z
  /\ round_half_up (float_mul_int (5 # 2) 3) = 8%Z.
Proof.
  split; [|split; reflexivity].
  eexists. split; [left; reflexivity|]. split; reflexivity.
Qed.

(** The rational model agrees with binary64 on sample rates up to
    [rate_exact]; far beyond it the float product is rounded and the two
    part. *)
Lemma float_model_samples :
  Forall (fun rate =>
            Binary64.price_syp 5 rate
            = Some (int_of_float (float_mul_int (5 # 2) rate))
            /\ Binary64.price_syp 3 rate
               = Some (int_of_float (float_mul_int (3 # 2) rate)))
         [0; 1; 3; 15000; 15001; 123456789; rate_exact - 1; rate_exact]%Z
  /\ Binary64.price_syp 5 (2 ^ 53 + 1)
     <> Some (int_of_float (float_mul_int (5 # 2) (2 ^ 53 + 1))).
Proof.
  split; [repeat constructor|]. vm_compute. discriminate.
Qed.

(** With a negative rate the first product fails the [price_syp >= 0]
    constraint of the schema: seeding raises and the catalog is kept. *)
Lemma seed_products_negative_rate (now : nat -> datetime)
    (gen : nat -> ObjectId) (rate : Z) (db : Db.t) :
  (rate < 0)%Z ->
  seed_products now gen (IntLiteral rate) db true
  = (Raise (ValidationError "price_syp"), db).
Proof.
  intros Hr. unfold seed_products. rewrite andb_false_r.
  unfold usd_to_syp_rate, seed, seed_entry, priced.
  assert (H : (0 <=? int_of_float (float_mul_int (5 # 2) rate))%Z = false).
  { apply Z.leb_gt.
    change (int_of_float (float_mul_int (5 # 2) rate)) with (5 * rate ÷ 2)%Z.
    replace (5 * rate)%Z with (- (- (5 * rate)))%Z by lia.
    rewrite Z.quot_opp_l by lia.
    rewrite Z.quot_div_nonneg by lia.
    assert (1 <= - (5 * rate) / 2)%Z by (apply Z.div_le_lower_bound; lia).
    lia. }
  unfold seed_docs, Product.make. cbn [Product.k_category Product.k_price_syp
    Product.k_price_usd snd fst]. rewrite H. reflexivity.
Qed.

(** ** Listing the catalog *)

Lemma plain_not_dot (c : ascii) : Regex.plain c = true -> Ascii.eqb c "." = false.
Proof.
  intros H. destruct (Ascii.eqb c ".") eqn:E; [|reflexivity].
  apply Ascii.eqb_eq in E. subst c. discriminate H.
Qed.

(** A pattern of plain characters compiles to these characters. *)
Lemma compile_plain (pat : string) :
  Regex.all_plain pat = true ->
  Regex.compile pat = Some (map Regex.Lit (list_ascii_of_string pat)).
Proof.
  induction pat as [|c pat IH]; simpl; [reflexivity|].
  intros H. apply andb_true_iff in H as [Hc Hp].
  now rewrite (plain_not_dot c Hc), Hc, (IH Hp).
Qed.

Lemma match_here_literal (pat s : string) :
  Regex.match_here (map Regex.Lit (list_ascii_of_string pat)) s = true
  <-> exists post, lower_str s = lower_str pat ++ post.
Proof.
  revert s. induction pat as [|a pat IH]; intros s; simpl.
  - split; [intros _; now exists (lower_str s)|reflexivity].
  - destruct s as [|c s]; simpl.
    + split; [discriminate|intros (post & H); discriminate H].
    + rewrite andb_true_iff, Ascii.eqb_eq, IH. split.
      * intros (Hc & post & Hs). exists post. now rewrite Hc, Hs.
      * intros (post & H). injection H as Hc Hs. split; [now symmetry|].
        now exists post.
Qed.

Lemma search_literal (pat s : string) :
  Regex.search (map Regex.Lit (list_ascii_of_string pat)) s = true
  <-> contains_ci s pat.
Proof.
  unfold contains_ci. induction s as [|c s IH]; simpl.
  - rewrite orb_false_r, match_here_literal. simpl. split.
    + intros (post & H). now exists "", post.
    + intros (pre & post & H). destruct pre; [|discriminate H].
      now exists post.
  - rewrite orb_true_iff, IH, match_here_literal. simpl. split.
    + intros [(post & H)|(pre & post & H)].
      * now exists "", post.
      * exists (String (lower c) pre), post. simpl. now rewrite H.
    + intros (pre & post & H). destruct pre as [|x pre]; simpl in H.
      * left. now exists post.
      * right. injection H as _ H. now exists pre, post.
Qed.

Lemma search_nil (s : string) : Regex.search [] s = true.
Proof. now destruct s. Qed.

Lemma insert_by_perm {A : Type} (leb : A -> A -> bool) (x : A) (l : list A) :
  Permutation (insert_by leb x l) (x :: l).
Proof.
  induction l as [|y l IH]; simpl; [reflexivity|].
  destruct (leb x y); [reflexivity|].
  rewrite IH. apply perm_swap.
Qed.

(** Sorting rearranges the cursor and nothing more. *)
Lemma sort_cursor_perm (f : sort_field) (ascending : bool)
    (cursor : list (doc ProductDoc.t)) :
  Permutation (sort_cursor f ascending cursor) cursor.
Proof.
  unfold sort_cursor. induction cursor as [|d c IH]; simpl; [reflexivity|].
  rewrite insert_by_perm. now constructor.
Qed.

Lemma matches_filters (category : option string)
    (featured new_arrival : option bool) (d : doc ProductDoc.t) :
  matches (mk_query (truthy category) featured new_arrival) d = true
  <-> passes_filters category featured new_arrival d.
Proof.
  unfold matches, passes_filters. simpl.
  rewrite !andb_true_iff.
  assert (Hb : forall (o : option bool) (x : bool),
             opt_test Bool.eqb o x = true <-> (forall b, o = Some b -> x = b)).
  { intros [y|] x; simpl.
    - rewrite Bool.eqb_true_iff. split; [now intros -> b [= <-]|auto].
    - split; [discriminate|reflexivity]. }
  rewrite !Hb.
  assert (Hc : opt_test String.eqb (truthy category)
                 (ProductDoc.category (fields d)) = true
               <-> (forall c, category = Some c -> c <> "" ->
                              ProductDoc.category (fields d) = c)).
  { destruct category as [[|a c]|]; simpl.
    - split; [now intros _ c [= <-] Hne|reflexivity].
    - rewrite String.eqb_eq. split; [now intros -> c' [= <-] _|].
      intros H. now apply H.
    - split; [discriminate|reflexivity]. }
  rewrite Hc. tauto.
Qed.

Lemma product_doc_with_id_inj {A : Type} (d d' : doc A) :
  product_doc_with_id (Some d) = product_doc_with_id (Some d') -> d = d'.
Proof.
  destruct d as [[h] f], d' as [[h'] f']. simpl. now intros [= -> ->].
Qed.

(** The cursor of a listing before it is turned into the answer. *)
Lemma list_products_cursor (db : Db.t) (category : option string)
    (search : string) (featured new_arrival : option bool)
    (sort : option string) :
  Regex.all_plain search = true ->
  exists cursor,
    list_products db category (Some search) featured new_arrival sort
    = Some (Listing.mk (map (fun p => product_doc_with_id (Some p)) cursor)
              (List.length (map (fun p => product_doc_with_id (Some p)) cursor)))
    /\ Permutation cursor
         (filter
            (fun d =>
               matches (mk_query (truthy category) featured new_arrival) d
               && Regex.search (map Regex.Lit (list_ascii_of_string search))
                    (ProductDoc.name (fields d)))
            (product db)).
Proof.
  intros Hplain. unfold list_products.
  set (q := mk_query (truthy category) featured new_arrival).
  assert (Hcur : exists c,
             match truthy (Some search) with
             | Some pat =>
                 option_map
                   (fun re =>
                      find (fun d => matches q d
                                     && Regex.search re (ProductDoc.name (fields d)))
                        (product db))
                   (Regex.compile pat)
             | None => Some (find (matches q) (product db))
             end = Some c
             /\ c = filter
                      (fun d =>
                         matches q d
                         && Regex.search
                              (map Regex.Lit (list_ascii_of_string search))
                              (ProductDoc.name (fields d)))
                      (product db)).
  { destruct search as [|a s].
    - simpl. eexists. split; [reflexivity|].
      unfold find. apply filter_ext. intros d.
      now rewrite search_nil, andb_true_r.
    - cbn [truthy]. rewrite (compile_plain _ Hplain).
      simpl. eexists. split; reflexivity. }
  destruct Hcur as (c & -> & Hc).
  destruct (option_map sort_map (truthy sort)) as [[[f dir]|]|]; simpl.
  - eexists. split; [reflexivity|]. rewrite sort_cursor_perm. now rewrite Hc.
  - eexists. split; [reflexivity|]. now rewrite Hc.
  - eexists. split; [reflexivity|]. now rewrite Hc.
Qed.

(** C8 (as amended): for a search string made of ASCII characters none of
    which is a metacharacter of regular expressions, the listing returns
    exactly the stored products whose name contains the search string,
    letter case aside, and that pass the equality filters given (category,
    featured, new arrival), and counts them.  On other search strings the
    string is read as a regular expression. *)
Theorem list_products_plain_search (db : Db.t) (category : option string)
    (search : string) (featured new_arrival : option bool)
    (sort : option string) :
  Regex.all_plain search = true ->
  exists l,
    list_products db category (Some search) featured new_arrival sort = Some l
    /\ Listing.count l = List.length (Listing.items l)
    /\ forall d,
         In (product_doc_with_id (Some d)) (Listing.items l)
         <-> In d (product db)
             /\ passes_filters category featured new_arrival d
             /\ contains_ci (ProductDoc.name (fields d)) search.
Proof.
  intros Hplain.
  destruct (list_products_cursor db category search featured new_arrival sort
              Hplain) as (cursor & -> & Hperm).
  eexists. split; [reflexivity|]. split; [reflexivity|].
  intros d. simpl. rewrite in_map_iff. split.
  - intros (d' & Heq & Hin). apply product_doc_with_id_inj in Heq. subst d'.
    apply (Permutation_in _ Hperm) in Hin.
    apply filter_In in Hin as (Hin & Hm). apply andb_true_iff in Hm as (Hq & Hs).
    split; [exact Hin|].
    split; [now apply matches_filters|now apply search_literal].
  - intros (Hin & Hq & Hs). exists d. split; [reflexivity|].
    apply (Permutation_in _ (Permutation_sym Hperm)).
    apply filter_In. split; [exact Hin|]. apply andb_true_iff. split.
    + now apply matches_filters.
    + now apply search_literal.
Qed.

Lemma list_products_plain_search_witness :
  exists l,
    list_products Samples.with_catalog (Some "rings") (Some "RING") None
      (Some false) (Some "name_asc") = Some l
    /\ Listing.count l = List.length (Listing.items l)
    /\ forall d,
         In (product_doc_with_id (Some d)) (Listing.items l)
         <-> In d (product Samples.with_catalog)
             /\ passes_filters (Some "rings") None (Some false) d
             /\ contains_ci (ProductDoc.name (fields d)) "RING".
Proof.
  apply (list_products_plain_search Samples.with_catalog (Some "rings") "RING"
           None (Some false) (Some "name_asc")).
  reflexivity.
Defined.

(** C8 (as stated) fails: the search string [.] is read as a regular
    expression and selects the product named [Ring], whose name does not
    contain a dot. *)
Lemma list_products_dot_matches_all :
  exists l,
    list_products Samples.with_catalog None (Some ".") None None None = Some l
    /\ In (product_doc_with_id (Some (Samples.product_named 0 "Ring" None)))
          (Listing.items l)
    /\ ~ contains_ci "Ring" ".".
Proof.
  eexists. split; [reflexivity|]. split; [left; reflexivity|].
  intros (pre & post & H). simpl in H.
  do 4 (destruct pre as [|? pre]; simpl in H;
        [discriminate H|injection H as _ H]).
  destruct pre; discriminate H.
Qed.

Lemma items_out_total_witness :
  let its := [ OrderItemIn.mk (str (Samples.ids 0%nat)) 1;
               OrderItemIn.mk (str (Samples.ids 1%nat)) 2;
               OrderItemIn.mk (str (Samples.ids 2%nat)) 1 ] in
  (exists snaps,
     items_out Samples.catalog its = Ok snaps /\
     Forall2
       (fun it snap =>
          exists prod,
            resolves Samples.catalog it prod /\
            ItemDict.image snap
            = hd_error (get_default (ProductDoc.images (fields prod)) []))
       its snaps)
  /\ option_map (map ItemDict.image)
       (match items_out Samples.catalog its with
        | Ok snaps => Some snaps
        | Raise _ => None
        end)
     = Some [None; None; Some "a.png"].
Proof.
  split; [|reflexivity].
  apply (items_out_total Samples.catalog).
  repeat (apply Forall_cons); [| | |apply Forall_nil].
  - exists (Samples.product_named 0 "Ring" None).
    eexists. split; reflexivity.
  - exists (Samples.product_named 1 "Silver ring" (Some [])).
    eexists. split; reflexivity.
  - exists (Samples.product_named 2 "Bracelet" (Some ["a.png"; "b.png"])).
    eexists. split; reflexivity.
Defined.

(** * Further properties *)

(** ** Phone numbers, further *)

Lemma validate_phone_intl (s r : string) :
  validate_phone s = Ok r -> intl_shape r /\ trimmed r.
Proof.
  unfold validate_phone. pose proof (strip_trimmed s) as Ht.
  destruct (startswith (strip s) "+963" && _) eqn:Hi.
  - intros [= <-]. split; [now apply intl_shape_dec|exact Ht].
  - destruct (startswith (strip s) "09" && _) eqn:Hl; [|discriminate].
    intros [= <-]. apply local_shape_dec in Hl.
    destruct (local_normal_form _ Ht Hl). now split.
Qed.

(** X1: the local and the international spelling of one number are
    stored alike: for nine characters [rest] that start with [9] and do not
    end with white space, ["0" ++ rest] and ["+963" ++ rest] both validate
    to ["+963" ++ rest]. *)
Theorem validate_phone_spellings_agree (rest : string) :
  len rest = 9%nat -> startswith rest "9" = true ->
  (forall c, last rest = Some c -> is_space c = false) ->
  validate_phone ("0" ++ rest) = Ok ("+963" ++ rest) /\
  validate_phone ("+963" ++ rest) = Ok ("+963" ++ rest).
Proof.
  intros Hn Hp Hl.
  do 9 (destruct rest as [|? rest]; [discriminate Hn|]).
  destruct rest; [|discriminate Hn].
  split.
  - unfold validate_phone. rewrite strip_fix.
    + simpl in Hp |- *. now rewrite Hp.
    + split; [simpl; now intros c [= <-]|exact Hl].
  - apply validate_phone_fix.
    + split; [simpl; now intros c [= <-]|exact Hl].
    + split; [reflexivity|now right].
Qed.

Lemma validate_phone_spellings_agree_witness :
  validate_phone "0912345678" = Ok "+963912345678" /\
  validate_phone "+963912345678" = Ok "+963912345678".
Proof.
  apply (validate_phone_spellings_agree "912345678"); try reflexivity.
  simpl. now intros c [= <-].
Defined.

Lemma lstrip_blank (p : string) : blank p = true -> lstrip p = "".
Proof.
  induction p as [|c p IH]; simpl; [reflexivity|].
  intros H. apply andb_true_iff in H as [Hc Hp]. now rewrite Hc, IH.
Qed.

Lemma rstrip_blank (p : string) : blank p = true -> rstrip p = "".
Proof.
  induction p as [|c p IH]; simpl; [reflexivity|].
  intros H. apply andb_true_iff in H as [Hc Hp]. now rewrite IH, Hc.
Qed.

Lemma lstrip_blank_app (p x : string) :
  blank p = true -> lstrip (p ++ x) = lstrip x.
Proof.
  induction p as [|c p IH]; simpl; [reflexivity|].
  intros H. apply andb_true_iff in H as [Hc Hp]. now rewrite Hc, IH.
Qed.

Lemma rstrip_app_blank (x p : string) :
  blank p = true -> rstrip (x ++ p) = rstrip x.
Proof.
  intros Hp. induction x as [|c x IH]; simpl.
  - now apply rstrip_blank.
  - now rewrite IH.
Qed.

Lemma strip_app_blank (s p : string) :
  blank p = true -> strip (s ++ p) = strip s.
Proof.
  intros Hp. unfold strip. induction s as [|c s IH]; simpl.
  - now rewrite lstrip_blank.
  - destruct (is_space c); [exact IH|].
    change (String c (s ++ p)) with (String c s ++ p).
    now apply rstrip_app_blank.
Qed.

(** X2: white space around a phone number does not count: with [before]
    and [after] made of white space only, [before ++ s ++ after] is
    validated exactly as [s] is, accepted with the same result or rejected
    alike. *)
Theorem validate_phone_ignores_padding (before s after : string) :
  blank before = true -> blank after = true ->
  validate_phone (before ++ s ++ after) = validate_phone s.
Proof.
  intros Hb Ha.
  assert (Hs : strip (before ++ s ++ after) = strip s).
  { unfold strip at 1. rewrite (lstrip_blank_app _ _ Hb).
    now apply strip_app_blank. }
  unfold validate_phone. now rewrite Hs.
Qed.

Lemma validate_phone_ignores_padding_witness :
  validate_phone ("  " ++ "0912345678" ++ String "010" "")
  = validate_phone "0912345678".
Proof.
  apply (validate_phone_ignores_padding "  " "0912345678" (String "010" ""));
    reflexivity.
Defined.

(** ** Identifiers, further *)

Lemma lower_hex (c : ascii) : is_hex c = true -> is_hex (lower c) = true.
Proof.
  destruct c as [[] [] [] [] [] [] [] []]; intros H;
    first [reflexivity | discriminate H].
Qed.

Lemma lower_lower (c : ascii) : lower (lower c) = lower c.
Proof. destruct c as [[] [] [] [] [] [] [] []]; reflexivity. Qed.

Lemma lower_str_idem (s : string) : lower_str (lower_str s) = lower_str s.
Proof.
  induction s as [|c s IH]; simpl; [reflexivity|]. now rewrite lower_lower, IH.
Qed.

Lemma lower_str_len (s : string) : len (lower_str s) = len s.
Proof.
  unfold len. induction s as [|c s IH]; simpl; [reflexivity|]. now rewrite IH.
Qed.

Lemma lower_str_hex (s : string) :
  all_hex s = true -> all_hex (lower_str s) = true.
Proof.
  induction s as [|c s IH]; simpl; [reflexivity|].
  intros H. apply andb_true_iff in H as [Hc Hs].
  now rewrite (lower_hex c Hc), (IH Hs).
Qed.

Lemma is_valid_lower (s : string) :
  is_valid s = true -> is_valid (lower_str s) = true.
Proof.
  unfold is_valid. intros H. apply andb_true_iff in H as [Hn Hh].
  now rewrite lower_str_len, Hn, (lower_str_hex s Hh).
Qed.

Lemma ObjectId_of_well_formed (s : string) (o : ObjectId) :
  ObjectId_of s = Ok o -> well_formed o /\ str o = lower_str s.
Proof.
  unfold ObjectId_of. destruct (is_valid s) eqn:Hv; [|discriminate].
  intros [= <-]. unfold well_formed. simpl.
  now rewrite (is_valid_lower s Hv), lower_str_idem.
Qed.

Lemma ObjectId_of_str (o : ObjectId) :
  well_formed o -> ObjectId_of (str o) = Ok o.
Proof.
  intros [Hv Hl]. unfold ObjectId_of. rewrite Hv, Hl. now destruct o.
Qed.

(** ** The catalog, further *)

Section InsertionSort.
Context {A : Type}.
Variable leb : A -> A -> bool.
Hypothesis leb_total : forall a b, leb a b = false -> leb b a = true.

Let R (a b : A) : Prop := leb a b = true.

Lemma insert_by_hd (x y : A) (l : list A) :
  R y x -> HdRel R y l -> HdRel R y (insert_by leb x l).
Proof.
  intros Hyx Hl. destruct l as [|z l]; simpl; [now constructor|].
  destruct (leb x z); constructor; [exact Hyx|].
  now inversion Hl.
Qed.

Lemma insert_by_sorted (x : A) (l : list A) :
  Sorted R l -> Sorted R (insert_by leb x l).
Proof.
  induction 1 as [|y l Hs IH Hhd]; simpl; [repeat constructor|].
  destruct (leb x y) eqn:Hxy.
  - constructor; [now constructor|now constructor].
  - constructor; [exact IH|].
    apply insert_by_hd; [now apply leb_total|exact Hhd].
Qed.

Lemma fold_insert_sorted (l : list A) :
  Sorted R (fold_right (insert_by leb) [] l).
Proof.
  induction l as [|x l IH]; simpl; [constructor|now apply insert_by_sorted].
Qed.

Lemma fold_insert_perm (l : list A) :
  Permutation (fold_right (insert_by leb) [] l) l.
Proof.
  induction l as [|x l IH]; simpl; [reflexivity|].
  rewrite insert_by_perm. now constructor.
Qed.
End InsertionSort.

Lemma opt_leb_total (a b : option Z) : opt_leb a b = false -> opt_leb b a = true.
Proof.
  destruct a as [x|], b as [y|]; simpl; try reflexivity; try discriminate.
  rewrite Z.leb_gt, Z.leb_le. lia.
Qed.

Lemma field_leb_total (f : sort_field) (a b : doc ProductDoc.t) :
  field_leb f a b = false -> field_leb f b a = true.
Proof.
  destruct f; simpl.
  - intros H.
    destruct (String.leb_total (ProductDoc.name (fields a))
                (ProductDoc.name (fields b))) as [H'|H']; congruence.
  - apply opt_leb_total.
  - rewrite Nat.leb_gt, Nat.leb_le. lia.
Qed.

(** The answer of a listing, whatever the parameters: the documents of a
    base cursor, all stored and all passing the equality filter, put in the
    order of the sort key when there is one the code knows. *)
Lemma list_products_any (db : Db.t) (category search : option string)
    (featured new_arrival : option bool) (sort : option string)
    (l : Listing.t) :
  list_products db category search featured new_arrival sort = Some l ->
  exists base,
    (forall d, In d base ->
               In d (product db)
               /\ matches (mk_query (truthy category) featured new_arrival) d
                  = true) /\
    Listing.items l
    = map (fun p => product_doc_with_id (Some p))
        (match option_map sort_map (truthy sort) with
         | Some (Some (f, direction)) => sort_cursor f direction base
         | _ => base
         end) /\
    Listing.count l = List.length (Listing.items l).
Proof.
  unfold list_products.
  set (q := mk_query (truthy category) featured new_arrival).
  assert (Hbase : forall c : option (list (doc ProductDoc.t)),
             c = match truthy search with
                 | Some pat =>
                     option_map
                       (fun re =>
                          find (fun d => matches q d
                                         && Regex.search re
                                              (ProductDoc.name (fields d)))
                            (product db))
                       (Regex.compile pat)
                 | None => Some (find (matches q) (product db))
                 end ->
             forall base, c = Some base ->
             forall d, In d base -> In d (product db) /\ matches q d = true).
  { intros c -> base Hc d Hin. destruct (truthy search) as [pat|].
    - destruct (Regex.compile pat) as [re|]; [|discriminate Hc].
      injection Hc as <-. apply filter_In in Hin as [Hin Hm].
      apply andb_true_iff in Hm as [Hm _]. now split.
    - injection Hc as <-. now apply filter_In in Hin. }
  specialize (Hbase _ eq_refl).
  destruct (match truthy search with Some _ => _ | None => _ end) as [base|];
    [|now destruct (option_map sort_map (truthy sort)) as [[[]|]|]].
  specialize (Hbase base eq_refl).
  intros H. exists base. split; [exact Hbase|].
  destruct (option_map sort_map (truthy sort)) as [[[f dir]|]|]; simpl in H;
    injection H as <-; now split.
Qed.

Lemma map_product_doc_with_id_inj {A : Type} (c c' : list (doc A)) :
  map (fun p => product_doc_with_id (Some p)) c
  = map (fun p => product_doc_with_id (Some p)) c' ->
  c = c'.
Proof.
  revert c'. induction c as [|d c IH]; intros [|d' c']; simpl;
    try discriminate; [reflexivity|].
  intros H. injection H as Hid Hfields Hrest.
  f_equal; [|now apply IH].
  apply product_doc_with_id_inj. simpl. now rewrite Hid, Hfields.
Qed.

(** X4: with a sort key the code knows and a search string without
    metacharacters (the empty one is no search at all), the listing answers
    the stored products that pass the equality filter and the search, each
    as often as it is stored and none besides, in the order of the field
    the key names (names as strings compare, a missing price before every
    price, creation times as numbers), ascending or descending as the key
    says.  Nothing is said about the order of two documents that agree on
    the field. *)
Theorem list_products_sorted (db : Db.t) (category : option string)
    (search : string) (featured new_arrival : option bool) (key : string)
    (f : sort_field) (ascending : bool) :
  Regex.all_plain search = true ->
  sort_map key = Some (f, ascending) ->
  exists l cursor,
    list_products db category (Some search) featured new_arrival (Some key)
    = Some l /\
    Listing.items l = map (fun p => product_doc_with_id (Some p)) cursor /\
    Listing.count l = List.length cursor /\
    Permutation cursor
      (filter
         (fun d =>
            matches (mk_query (truthy category) featured new_arrival) d
            && Regex.search (map Regex.Lit (list_ascii_of_string search))
                 (ProductDoc.name (fields d)))
         (product db)) /\
    Sorted (fun a b =>
              (if ascending then field_leb f a b else field_leb f b a) = true)
           cursor.
Proof.
  intros Hplain Hk.
  destruct (list_products_cursor db category search featured new_arrival
              (Some key) Hplain) as (cursor & Hl & Hperm).
  destruct (list_products_any _ _ _ _ _ _ _ Hl) as (base & _ & Hitems & _).
  assert (Ht : truthy (Some key) = Some key).
  { destruct key; [discriminate Hk|reflexivity]. }
  rewrite Ht in Hitems. simpl in Hitems. rewrite Hk in Hitems.
  apply map_product_doc_with_id_inj in Hitems.
  eexists. exists cursor. split; [exact Hl|].
  split; [reflexivity|]. split; [simpl; now rewrite length_map|].
  split; [exact Hperm|].
  rewrite Hitems. unfold sort_cursor. apply fold_insert_sorted.
  intros a b. destruct ascending; apply field_leb_total.
Qed.

Lemma list_products_sorted_witness :
  exists l cursor,
    list_products Samples.with_catalog None (Some "ring") None None
      (Some "name_desc") = Some l /\
    Listing.items l = map (fun p => product_doc_with_id (Some p)) cursor /\
    Listing.count l = List.length cursor /\
    Permutation cursor
      [Samples.product_named 0 "Ring" None;
       Samples.product_named 1 "Silver ring" (Some [])] /\
    Sorted (fun a b => field_leb ByName b a = true) cursor.
Proof.
  exact (list_products_sorted Samples.with_catalog None "ring" None None
           "name_desc" ByName false eq_refl eq_refl).
Defined.

Lemma find_one_by_id {A : Type} (c : collection A) (d : doc A) :
  NoDup (map _id c) -> In d c -> find_one (id_is (_id d)) c = Some d.
Proof.
  unfold find_one. induction c as [|x c IH]; simpl; [contradiction|].
  intros Hnd Hin. inversion Hnd as [|? ? Hx Hc]; subst.
  destruct Hin as [->|Hin].
  - unfold id_is. now rewrite eqb_refl.
  - destruct (id_is (_id d) x) eqn:Hid; [|now apply IH].
    exfalso. apply eqb_eq in Hid. apply Hx. rewrite Hid.
    now apply in_map.
Qed.

(** X5: what a listing shows can be fetched: in a store whose products
    have distinct, well-formed identifiers, [get_product] on the [id] of any
    item of any listing answers that very item. *)
Theorem list_products_then_get_product (db : Db.t)
    (category search : option string) (featured new_arrival : option bool)
    (sort : option string) (l : Listing.t) (it : with_id ProductDoc.t) :
  NoDup (map _id (product db)) ->
  Forall (fun d => well_formed (_id d)) (product db) ->
  list_products db category search featured new_arrival sort = Some l ->
  In (Some it) (Listing.items l) ->
  get_product db (id it) = Ok (Some it).
Proof.
  intros Hnd Hwf Hl Hin.
  destruct (list_products_any _ _ _ _ _ _ _ Hl) as (base & Hbase & Hitems & _).
  rewrite Hitems in Hin. apply in_map_iff in Hin as (d & Hd & Hin).
  assert (Hd_base : In d base).
  { destruct (option_map sort_map (truthy sort)) as [[[f dir]|]|]; auto.
    now apply (Permutation_in _ (sort_cursor_perm f dir base)). }
  destruct (Hbase d Hd_base) as [Hstored _].
  simpl in Hd. injection Hd as <-. simpl.
  rewrite Forall_forall in Hwf.
  unfold get_product. rewrite (ObjectId_of_str _ (Hwf d Hstored)). simpl.
  now rewrite (find_one_by_id _ _ Hnd Hstored).
Qed.

Lemma list_products_then_get_product_witness :
  let it := mk_with_id (str (Samples.ids 1%nat))
              (fields (Samples.product_named 1 "Silver ring" (Some []))) in
  get_product Samples.with_catalog (id it) = Ok (Some it).
Proof.
  intros it.
  apply (list_products_then_get_product Samples.with_catalog
           (Some "rings") (Some "ring") None None (Some "price_asc")
           (Listing.mk
              (map (fun p => product_doc_with_id (Some p))
                 [Samples.product_named 0 "Ring" None;
                  Samples.product_named 1 "Silver ring" (Some [])]) 2)).
  - repeat constructor; simpl; intuition discriminate.
  - repeat constructor.
  - reflexivity.
  - right. left. reflexivity.
Defined.

(** ** Seeding, further *)

Lemma seed_docs_ok_indep (now now' : nat -> datetime) (k k' : nat)
    (ps : list Product.kwargs) :
  is_ok (seed_docs now k ps) = is_ok (seed_docs now' k' ps).
Proof.
  revert k k'. induction ps as [|p ps IH]; intros k k'; simpl; [reflexivity|].
  destruct (Product.make p); simpl; [|reflexivity].
  specialize (IH (S k) (S k')).
  destruct (seed_docs now (S k) ps), (seed_docs now' (S k') ps);
    simpl in *; congruence.
Qed.

Lemma seed_docs_length (now : nat -> datetime) (k : nat)
    (ps : list Product.kwargs) (docs : list ProductDoc.t) :
  seed_docs now k ps = Ok docs -> List.length docs = List.length ps.
Proof.
  revert k docs. induction ps as [|p ps IH]; intros k docs; simpl.
  - now intros [= <-].
  - destruct (Product.make p); simpl; [|discriminate].
    destruct (seed_docs now (S k) ps) eqn:Hr; simpl; [|discriminate].
    intros [= <-]. simpl. now rewrite (IH _ _ Hr).
Qed.

Lemma Product_make_valid (p : Product.kwargs) (t : Product.t) :
  Product.make p = Ok t ->
  In (Product.category t) CategoryLiteral /\ (0 <= Product.price_syp t)%Z
  /\ Qle 0 (Product.price_usd t).
Proof.
  unfold Product.make, check.
  destruct (str_in (Product.k_category p) CategoryLiteral) eqn:Hc; simpl;
    [|discriminate].
  destruct (0 <=? Product.k_price_syp p)%Z eqn:Hs; simpl; [|discriminate].
  destruct (Qle_bool 0 (Product.k_price_usd p)) eqn:Hu; simpl; [|discriminate].
  intros [= <-]. cbn [Product.category Product.price_syp Product.price_usd].
  split; [now apply str_in_In in Hc|].
  split; [now apply Z.leb_le|now apply Qle_bool_iff].
Qed.

Lemma seed_docs_valid (now : nat -> datetime) (gen : nat -> ObjectId)
    (k j : nat) (ps : list Product.kwargs) (docs : list ProductDoc.t) :
  seed_docs now k ps = Ok docs ->
  Forall valid_product (with_ids gen j docs).
Proof.
  revert k j docs. induction ps as [|p ps IH]; intros k j docs; simpl.
  - intros [= <-]. constructor.
  - destruct (Product.make p) as [t|] eqn:Ht; simpl; [|discriminate].
    destruct (seed_docs now (S k) ps) eqn:Hr; simpl; [|discriminate].
    intros [= <-]. simpl. constructor; [|now apply (IH (S k))].
    apply Product_make_valid in Ht as (Hc & Hs & Hu).
    unfold valid_product. simpl. repeat split; eauto.
Qed.

Lemma seed_docs_negative (now : nat -> datetime) (rate : Z) :
  (rate < 0)%Z ->
  seed_docs now 0 (seed rate) = Raise (ValidationError "price_syp").
Proof.
  intros Hr. unfold seed, seed_entry, priced.
  assert (H : (0 <=? int_of_float (float_mul_int (5 # 2) rate))%Z = false).
  { apply Z.leb_gt.
    change (int_of_float (float_mul_int (5 # 2) rate)) with (5 * rate ÷ 2)%Z.
    replace (5 * rate)%Z with (- (- (5 * rate)))%Z by lia.
    rewrite Z.quot_opp_l by lia.
    rewrite Z.quot_div_nonneg by lia.
    assert (1 <= - (5 * rate) / 2)%Z by (apply Z.div_le_lower_bound; lia).
    lia. }
  unfold seed_docs, Product.make. cbn [Product.k_category Product.k_price_syp
    Product.k_price_usd snd fst]. rewrite H. reflexivity.
Qed.

(** X6: the outcome of seeding, for a rate between [-2^50] and [2^50]:
    it raises exactly when it has to seed (empty catalog, or [force]) with
    a negative rate, and then the store is as it was; otherwise it answers
    either "exists" with the store untouched, or "seeded" with a catalog of
    five products that all meet the constraints of the [Product] schema
    (a known category, prices that are not negative). *)
Theorem seed_products_outcome (now : nat -> datetime) (gen : nat -> ObjectId)
    (env : env_rate) (db : Db.t) (force : bool) :
  (- rate_exact <= usd_to_syp_rate env <= rate_exact)%Z ->
  match seed_products now gen env db force with
  | (Raise e, db') =>
      e = ValidationError "price_syp" /\ db' = db /\
      (usd_to_syp_rate env < 0)%Z /\ (product db = [] \/ force = true)
  | (Ok a, db') =>
      (SeedAnswer.status a = "exists" /\ db' = db /\
       product db <> [] /\ force = false /\
       SeedAnswer.count a = List.length (product db))
      \/
      (SeedAnswer.status a = "seeded" /\ (0 <= usd_to_syp_rate env)%Z /\
       (product db = [] \/ force = true) /\
       SeedAnswer.count a = 5%nat /\ List.length (product db') = 5%nat /\
       Forall valid_product (product db') /\
       user db' = user db /\ order db' = order db)
  end.
Proof.
  intros _. unfold seed_products, count_documents.
  destruct ((0 <? List.length (product db))%nat && negb force) eqn:Hg.
  - left. apply andb_true_iff in Hg as [Hlen Hf].
    apply Nat.ltb_lt in Hlen. apply negb_true_iff in Hf.
    repeat split; auto. intros Hnil. rewrite Hnil in Hlen. simpl in Hlen. lia.
  - assert (Hcase : product db = [] \/ force = true).
    { apply andb_false_iff in Hg as [Hlen|Hf].
      - left. apply Nat.ltb_ge in Hlen. destruct (product db); [reflexivity|].
        simpl in Hlen. lia.
      - right. now apply negb_false_iff in Hf. }
    destruct (Z.neg_nonneg_cases (usd_to_syp_rate env)) as [Hneg|Hpos].
    + rewrite (seed_docs_negative now _ Hneg). repeat split; auto.
    + destruct (seed_docs_prices now _ Hpos) as (docs & Hdocs & _).
      rewrite Hdocs. right.
      pose proof (seed_docs_length _ _ _ _ Hdocs) as Hlen. simpl in Hlen.
      unfold set_product, insert_many, delete_many. simpl.
      repeat split; auto.
      * clear Hdocs. do 5 (destruct docs as [|? docs]; [discriminate Hlen|]).
        destruct docs; [reflexivity|discriminate Hlen].
      * now apply (seed_docs_valid now gen 0 0 (seed (usd_to_syp_rate env))).
Qed.

Lemma seed_products_outcome_witness :
  (exists db',
     seed_products Samples.clock Samples.ids (IntLiteral (-15000))
       Samples.with_catalog true
     = (Raise (ValidationError "price_syp"), db')
     /\ db' = Samples.with_catalog) /\
  (exists a db',
     seed_products Samples.clock Samples.ids Unset Db.empty false
     = (Ok a, db')
     /\ SeedAnswer.status a = "seeded"
     /\ Forall valid_product (product db')).
Proof.
  split.
  - pose proof (seed_products_outcome Samples.clock Samples.ids
                  (IntLiteral (-15000)) Samples.with_catalog true) as H.
    destruct (seed_products Samples.clock Samples.ids (IntLiteral (-15000))
                Samples.with_catalog true) as [[a|e] db'] eqn:Hs.
    + discriminate Hs.
    + destruct H as (-> & -> & _).
      * unfold rate_exact. simpl. lia.
      * now exists Samples.with_catalog.
  - pose proof (seed_products_outcome Samples.clock Samples.ids Unset
                  Db.empty false) as H.
    destruct (seed_products Samples.clock Samples.ids Unset Db.empty false)
      as [[a|e] db'] eqn:Hs.
    + destruct H as [(_ & _ & Hne & _)|(Hst & _ & _ & _ & _ & Hv & _)].
      * unfold rate_exact. simpl. lia.
      * now contradiction Hne.
      * exists a, db'. auto.
    + discriminate Hs.
Defined.

Lemma seed_products_noop (now : nat -> datetime) (gen : nat -> ObjectId)
    (env : env_rate) (db : Db.t) :
  product db <> [] ->
  seed_products now gen env db false
  = (Ok (SeedAnswer.mk "exists" (List.length (product db))), db).
Proof.
  intros Hne. unfold seed_products, count_documents.
  destruct (product db); [contradiction|reflexivity].
Qed.

Lemma seed_products_seeds (now : nat -> datetime) (gen : nat -> ObjectId)
    (env : env_rate) (db : Db.t) (force : bool) :
  product db = [] \/ force = true ->
  seed_products now gen env db force
  = match seed_docs now 0 (seed (usd_to_syp_rate env)) with
    | Raise e => (Raise e, db)
    | Ok docs =>
        (Ok (SeedAnswer.mk "seeded" (List.length docs)),
         set_product db (insert_many gen docs (delete_many (product db))))
    end.
Proof.
  intros Hcase. unfold seed_products, count_documents.
  replace ((0 <? List.length (product db))%nat && negb force) with false;
    [reflexivity|].
  destruct Hcase as [-> | ->]; [reflexivity|now rewrite andb_false_r].
Qed.

(** X7: seeding without [force] is idempotent: after one such call
    (whatever it answered), a second one with the same rate leaves the
    store exactly as the first left it. *)
Theorem seed_products_idempotent (now1 now2 : nat -> datetime)
    (gen1 gen2 : nat -> ObjectId) (env : env_rate) (db : Db.t) :
  (- rate_exact <= usd_to_syp_rate env <= rate_exact)%Z ->
  let db1 := snd (seed_products now1 gen1 env db false) in
  snd (seed_products now2 gen2 env db1 false) = db1.
Proof.
  intros _ db1. subst db1.
  destruct (product db) as [|d c] eqn:Hp.
  - rewrite (seed_products_seeds now1 gen1 env db false (or_introl Hp)).
    destruct (seed_docs now1 0 (seed (usd_to_syp_rate env))) as [docs|e] eqn:Hd.
    + pose proof (seed_docs_length _ _ _ _ Hd) as Hlen.
      destruct docs as [|x docs]; [discriminate Hlen|].
      cbn [snd]. rewrite seed_products_noop; [reflexivity|discriminate].
    + cbn [snd].
      rewrite (seed_products_seeds now2 gen2 env db false (or_introl Hp)).
      pose proof (seed_docs_ok_indep now1 now2 0 0
                    (seed (usd_to_syp_rate env))) as Hi.
      rewrite Hd in Hi.
      destruct (seed_docs now2 0 (seed (usd_to_syp_rate env)));
        [discriminate Hi|reflexivity].
  - assert (Hne : product db <> []) by (rewrite Hp; discriminate).
    rewrite (seed_products_noop now1 gen1 env db Hne). cbn [snd].
    now rewrite (seed_products_noop now2 gen2 env db Hne).
Qed.

Lemma seed_products_idempotent_witness :
  let db1 := snd (seed_products Samples.clock Samples.ids (IntLiteral 15000)
                    Db.empty false) in
  List.length (product db1) = 5%nat /\
  snd (seed_products (fun k => (Samples.clock k + 7)%nat)
         (fun k => Samples.ids (k + 3)) (IntLiteral 15000) db1 false) = db1.
Proof.
  split; [reflexivity|].
  apply (seed_products_idempotent Samples.clock
           (fun k => (Samples.clock k + 7)%nat) Samples.ids
           (fun k => Samples.ids (k + 3)) (IntLiteral 15000) Db.empty).
  unfold rate_exact. simpl. lia.
Defined.

(** ** The address book, further *)

Lemma grows_refl (users : collection UserDoc.t) : grows users users.
Proof.
  intros i u Hu. exists u, []. rewrite app_nil_r. repeat split; auto.
Qed.

Lemma grows_insert (users : collection UserDoc.t) (oid : ObjectId)
    (u : UserDoc.t) :
  grows users (insert_one oid u users).
Proof.
  intros i x Hx. exists x, []. rewrite app_nil_r. repeat split; auto.
  unfold insert_one. rewrite nth_error_app1; [exact Hx|].
  apply nth_error_Some. congruence.
Qed.

Lemma grows_update (pre post : collection UserDoc.t) (u : doc UserDoc.t)
    (addr : Address.t) (t : datetime) :
  grows (pre ++ u :: post)%list
        (pre ++ mk_doc (_id u)
                  (set_addresses (addresses_of u ++ [addr])%list t (fields u))
             :: post)%list.
Proof.
  intros i x Hx.
  destruct (Nat.lt_trichotomy i (List.length pre)) as [Hlt|[Heq|Hgt]].
  - rewrite nth_error_app1 in Hx |- * by exact Hlt.
    exists x, []. rewrite app_nil_r. repeat split; auto.
  - subst i. rewrite nth_error_app2 in Hx |- * by lia.
    rewrite Nat.sub_diag in Hx |- *. simpl in Hx |- *. injection Hx as <-.
    eexists. exists [addr]. repeat split.
  - rewrite nth_error_app2 in Hx |- * by lia.
    destruct (i - List.length pre)%nat as [|k] eqn:Hk; [lia|].
    simpl in Hx |- *. exists x, []. rewrite app_nil_r. repeat split; auto.
Qed.

(** The branch of [add_address] and of [create_order] for a user that
    exists: afterwards the user is found under the same phone, holds an
    address with the key of [addr], and the collection has only grown. *)
Lemma append_if_new (users : collection UserDoc.t) (u : doc UserDoc.t)
    (phone : string) (addr : Address.t) (t : datetime) :
  NoDup (map _id users) ->
  find_one (phone_is phone) users = Some u ->
  let users' :=
    if negb (existsb (same_key (Address.phone addr) (Address.street addr))
                     (addresses_of u))
    then fst (update_one (id_is (_id u))
                (set_addresses (addresses_of u ++ [addr])%list t) users)
    else users in
  exists u',
    find_one (phone_is phone) users' = Some u' /\
    existsb (same_key (Address.phone addr) (Address.street addr))
            (addresses_of u') = true /\
    grows users users' /\
    map _id users' = map _id users.
Proof.
  intros Hnd Hf users'. subst users'.
  destruct (existsb _ (addresses_of u)) eqn:Hex; simpl.
  - exists u. repeat split; auto using grows_refl.
  - destruct (update_found _ (set_addresses (addresses_of u ++ [addr])%list t)
                _ _ Hnd Hf) as (pre & post & Hc & Hpre & Hup).
    rewrite Hup. simpl. eexists. split; [|split; [|split]].
    + rewrite (find_one_app _ _ _ Hpre). unfold find_one. simpl.
      replace (phone_is phone _) with true; [reflexivity|].
      apply find_one_split in Hf as (_ & _ & _ & _ & Hq). now symmetry.
    + unfold addresses_of. simpl. rewrite existsb_app. simpl.
      unfold same_key. rewrite !String.eqb_refl. simpl.
      now rewrite orb_true_r.
    + rewrite Hc. apply grows_update.
    + rewrite Hc, !map_app. reflexivity.
Qed.

Lemma same_key_refl (a : Address.t) :
  same_key (Address.phone a) (Address.street a) a = true.
Proof. unfold same_key. now rewrite !String.eqb_refl. Qed.

(** After [add_address] the user is found under the path phone and holds
    an address with the key of the body; the collection has only grown. *)
Lemma add_address_after (now : nat -> datetime) (gen : nat -> ObjectId)
    (db : Db.t) (phone : string) (body : Address.t) :
  NoDup (map _id (user db)) ->
  exists u',
    find_one (phone_is phone) (user (snd (add_address now gen db phone body)))
    = Some u' /\
    existsb (same_key (Address.phone body) (Address.street body))
            (addresses_of u') = true /\
    grows (user db) (user (snd (add_address now gen db phone body))).
Proof.
  intros Hnd. unfold add_address.
  destruct (find_one (phone_is phone) (user db)) as [u|] eqn:Hf.
  - destruct (append_if_new _ _ _ body (now 0%nat) Hnd Hf)
      as (u' & Hf' & Hex & Hg & _).
    exists u'. destruct (negb _); simpl in *; auto.
  - simpl. eexists. split; [|split].
    + unfold insert_one. rewrite (find_one_app _ _ _ Hf).
      unfold find_one, phone_is. simpl. now rewrite String.eqb_refl.
    + unfold addresses_of. simpl. now rewrite same_key_refl.
    + apply grows_insert.
Qed.

(** X8: an address that was posted is listed: in a store whose users
    have distinct identifiers, after a post whose body passes validation,
    [get_addresses] for the same path phone holds an address with the
    normalised phone and the street of the body. *)
Theorem post_address_then_get_addresses (now : nat -> datetime)
    (gen : nat -> ObjectId) (db : Db.t) (phone : string) (raw : Address.t)
    (normal : string) :
  NoDup (map _id (user db)) ->
  validate_phone (Address.phone raw) = Ok normal ->
  fst (post_address now gen db phone raw) = Ok ok /\
  exists a,
    In a (get_addresses (snd (post_address now gen db phone raw)) phone) /\
    Address.phone a = normal /\ Address.street a = Address.street raw.
Proof.
  intros Hnd Hv. unfold post_address, Address.make. rewrite Hv. simpl.
  set (body := Address.mk _ _ _ _ _ _).
  split.
  - unfold add_address. destruct (find_one _ _); [|reflexivity].
    now destruct (negb _).
  - destruct (add_address_after now gen db phone body Hnd)
      as (u' & Hf & Hex & _).
    unfold get_addresses. rewrite Hf.
    apply existsb_exists in Hex as (a & Hin & Hk).
    apply same_key_true in Hk as [Hp Hs]. now exists a.
Qed.

Lemma post_address_then_get_addresses_witness :
  exists a,
    In a (get_addresses
            (snd (post_address Samples.clock Samples.ids Samples.with_rama
                    "+963912345678"
                    (Address.mk None "Rama" " 0912345678" "Aleppo" "Street 2"
                       None)))
            "+963912345678") /\
    Address.phone a = "+963912345678" /\ Address.street a = "Street 2".
Proof.
  apply (post_address_then_get_addresses Samples.clock Samples.ids
           Samples.with_rama "+963912345678"
           (Address.mk None "Rama" " 0912345678" "Aleppo" "Street 2" None)
           "+963912345678").
  - repeat constructor. simpl. tauto.
  - reflexivity.
Defined.

(** X9: adding an address twice is adding it once: in a store whose
    users have distinct identifiers, a second [add_address] with the same
    path phone and body (at any later time) leaves the store as the first
    call left it. *)
Theorem add_address_idempotent (now1 now2 : nat -> datetime)
    (gen1 gen2 : nat -> ObjectId) (db : Db.t) (phone : string)
    (body : Address.t) :
  NoDup (map _id (user db)) ->
  let db1 := snd (add_address now1 gen1 db phone body) in
  add_address now2 gen2 db1 phone body = (Ok ok, db1).
Proof.
  intros Hnd db1.
  destruct (add_address_after now1 gen1 db phone body Hnd) as (u' & Hf & Hex & _).
  fold db1 in Hf. unfold add_address at 1. now rewrite Hf, Hex.
Qed.

Lemma add_address_idempotent_witness :
  let db1 := snd (add_address Samples.clock Samples.ids Samples.with_rama
                    "+963912345678" Samples.office) in
  map (fun u => List.length (addresses_of u)) (user db1) = [2%nat] /\
  add_address (fun k => (Samples.clock k + 9)%nat) Samples.ids db1
    "+963912345678" Samples.office = (Ok ok, db1).
Proof.
  split; [reflexivity|].
  apply (add_address_idempotent Samples.clock
           (fun k => (Samples.clock k + 9)%nat) Samples.ids Samples.ids
           Samples.with_rama "+963912345678" Samples.office).
  repeat constructor. simpl. tauto.
Defined.

(** X10: the address book only grows: in a store whose users have
    distinct identifiers, after [add_address] every user that was stored is
    still stored at the same place with the same identifier, phone and name,
    and its former addresses are the beginning of its address list. *)
Theorem add_address_grows (now : nat -> datetime) (gen : nat -> ObjectId)
    (db : Db.t) (phone : string) (body : Address.t) :
  NoDup (map _id (user db)) ->
  grows (user db) (user (snd (add_address now gen db phone body))).
Proof.
  intros Hnd.
  now destruct (add_address_after now gen db phone body Hnd) as (_ & _ & _ & Hg).
Qed.

Lemma add_address_grows_witness :
  grows (user Samples.with_rama)
        (user (snd (add_address Samples.clock Samples.ids Samples.with_rama
                      "+963900000000" Samples.office))).
Proof.
  apply (add_address_grows Samples.clock Samples.ids Samples.with_rama
           "+963900000000" Samples.office).
  repeat constructor. simpl. tauto.
Defined.

(** ** Order creation, further *)

Lemma items_out_resolved (products : collection ProductDoc.t)
    (its : list OrderItemIn.t) :
  Forall (fun it => exists prod, resolves products it prod) its ->
  exists snaps,
    items_out products its = Ok snaps /\ List.length snaps = List.length its.
Proof.
  induction 1 as [|it its (prod & oid & Ho & Hf) _ (snaps & Hs & Hlen)].
  - now exists [].
  - exists (snapshot it prod :: snaps). simpl.
    rewrite Ho. simpl. rewrite Hf, Hs. simpl. now rewrite Hlen.
Qed.

Lemma Order_make_empty (user_phone user_name : string) (address : Address.t)
    (city : string) (notes : option string) (items : list ItemDict.t)
    (o : Order.t) :
  Order.make user_phone user_name items address city notes "Pending COD" = Ok o ->
  o = Order.mk user_phone user_name (Order.items o) address city notes
        "Pending COD" None None.
Proof.
  unfold Order.make. destruct (Order.make_items items); simpl; [|discriminate].
  now intros [= <-].
Qed.

(** X11: the outcome of [create_order]: when it raises, the store is as
    it was; when it answers, the phone of the body passed validation,
    exactly one order was appended (under the identifier the answer names,
    filed under the normalised phone, with the name, city, street and notes
    of the body, status [Pending COD], no admin note, no delivery date, and
    both time stamps equal to the time of the call), and the catalog is
    untouched. *)
Theorem create_order_outcome (now : nat -> datetime) (gen : nat -> ObjectId)
    (db : Db.t) (body : OrderCreateIn.t) :
  match create_order now gen db body with
  | (Raise e, db') => db' = db
  | (Ok a, db') =>
      exists normal o,
        validate_phone (OrderCreateIn.phone body) = Ok normal /\
        order db' = (order db ++ [mk_doc (gen 0%nat) o])%list /\
        product db' = product db /\
        a = OrderAnswer.mk (str (gen 0%nat)) "Pending COD" /\
        OrderDoc.user_phone o = normal /\
        OrderDoc.user_name o = OrderCreateIn.full_name body /\
        OrderDoc.address o
        = Address.mk None (OrderCreateIn.full_name body) normal
            (OrderCreateIn.city body) (OrderCreateIn.street body)
            (OrderCreateIn.notes body) /\
        OrderDoc.city o = OrderCreateIn.city body /\
        OrderDoc.notes o = OrderCreateIn.notes body /\
        OrderDoc.status o = "Pending COD" /\
        OrderDoc.admin_note o = None /\
        OrderDoc.expected_delivery_date o = None /\
        OrderDoc.created_at o = now 0%nat /\
        OrderDoc.updated_at o = now 0%nat
  end.
Proof.
  unfold create_order.
  destruct (items_out _ _) as [snaps|]; [|reflexivity].
  unfold Address.make.
  destruct (validate_phone (OrderCreateIn.phone body)) as [normal|] eqn:Hv;
    simpl; [|reflexivity].
  destruct (Order.make _ _ _ _ _ _ _) as [o|] eqn:Ho; [|reflexivity].
  apply Order_make_empty in Ho. rewrite Ho.
  exists normal. eexists. split; [reflexivity|]. split; [reflexivity|].
  simpl. repeat split.
Qed.

(** X12: an order with lines is never stored: when the order has at
    least one line, every line names a stored product and the phone is
    valid, [create_order] raises [ValidationError] on [product_id] (the item
    dictionaries carry an [ObjectId] where the [OrderItem] schema wants a
    [str]), which is a server error, and the store is as it was. *)
Theorem create_order_with_lines_fails (now : nat -> datetime)
    (gen : nat -> ObjectId) (db : Db.t) (body : OrderCreateIn.t)
    (normal : string) :
  OrderCreateIn.items body <> [] ->
  Forall (fun it => exists prod, resolves (product db) it prod)
         (OrderCreateIn.items body) ->
  validate_phone (OrderCreateIn.phone body) = Ok normal ->
  create_order now gen db body = (Raise (ValidationError "product_id"), db)
  /\ http_status (ValidationError "product_id") = 500%nat.
Proof.
  intros Hne Hres Hv. split; [|reflexivity].
  destruct (items_out_resolved _ _ Hres) as (snaps & Hs & Hlen).
  destruct snaps as [|snap snaps].
  - destruct (OrderCreateIn.items body); [contradiction|discriminate Hlen].
  - now apply (create_order_with_lines_raises now gen db body snap snaps normal).
Qed.

Lemma create_order_with_lines_fails_witness :
  create_order Samples.clock Samples.ids Samples.with_catalog
    (OrderCreateIn.mk "Rama" "0912345678" "Damascus" "Street 1" None None
       [OrderItemIn.mk (str (Samples.ids 2%nat)) 1])
  = (Raise (ValidationError "product_id"), Samples.with_catalog)
  /\ http_status (ValidationError "product_id") = 500%nat.
Proof.
  apply (create_order_with_lines_fails Samples.clock Samples.ids
           Samples.with_catalog
           (OrderCreateIn.mk "Rama" "0912345678" "Damascus" "Street 1" None None
              [OrderItemIn.mk (str (Samples.ids 2%nat)) 1])
           "+963912345678").
  - discriminate.
  - constructor; [|constructor].
    exists (Samples.product_named 2 "Bracelet" (Some ["a.png"; "b.png"])).
    eexists. split; reflexivity.
  - reflexivity.
Defined.

(** X13: a phone that fails validation is a client error on the address
    route and a server error on the order route: [post_address] answers 422,
    while [create_order], once its lines are resolved, lets the
    [ValidationError] of the [Address] schema escape (500); neither
    changes the store. *)
Theorem invalid_phone_answers (now : nat -> datetime) (gen : nat -> ObjectId)
    (db : Db.t) (phone : string) (raw : Address.t) (body : OrderCreateIn.t) :
  is_ok (validate_phone (Address.phone raw)) = false ->
  OrderCreateIn.phone body = Address.phone raw ->
  Forall (fun it => exists prod, resolves (product db) it prod)
         (OrderCreateIn.items body) ->
  post_address now gen db phone raw = (Raise (HTTPException 422 "Unprocessable Entity"), db)
  /\ create_order now gen db body = (Raise (ValidationError "phone"), db)
  /\ client_error (HTTPException 422 "Unprocessable Entity") = true
  /\ client_error (ValidationError "phone") = false.
Proof.
  intros Hv Hp Hres.
  destruct (validate_phone (Address.phone raw)) as [|e] eqn:He;
    [discriminate Hv|].
  split; [|split; [|split; reflexivity]].
  - unfold post_address, Address.make. now rewrite He.
  - destruct (items_out_resolved _ _ Hres) as (snaps & Hs & _).
    unfold create_order, Address.make. now rewrite Hs, Hp, He.
Qed.

Lemma invalid_phone_answers_witness :
  post_address Samples.clock Samples.ids Db.empty "0912345678"
    (Address.mk None "Rama" "12345" "Damascus" "Street 1" None)
  = (Raise (HTTPException 422 "Unprocessable Entity"), Db.empty)
  /\ create_order Samples.clock Samples.ids Db.empty
       (OrderCreateIn.mk "Rama" "12345" "Damascus" "Street 1" None None [])
     = (Raise (ValidationError "phone"), Db.empty)
  /\ client_error (HTTPException 422 "Unprocessable Entity") = true
  /\ client_error (ValidationError "phone") = false.
Proof.
  apply (invalid_phone_answers Samples.clock Samples.ids Db.empty "0912345678"
           (Address.mk None "Rama" "12345" "Damascus" "Street 1" None)
           (OrderCreateIn.mk "Rama" "12345" "Damascus" "Street 1" None None []));
    [reflexivity|reflexivity|constructor].
Defined.

(** X14: the first line whose product is unknown decides: when the lines
    before it all name stored products, and its own identifier is well
    formed but carried by no product, [create_order] answers 400 with that
    identifier in the detail, whatever the later lines and the phone are,
    and the store is as it was. *)
Theorem create_order_first_unknown (now : nat -> datetime)
    (gen : nat -> ObjectId) (db : Db.t) (body : OrderCreateIn.t)
    (pre post : list OrderItemIn.t) (it : OrderItemIn.t) (oid : ObjectId) :
  OrderCreateIn.items body = (pre ++ it :: post)%list ->
  Forall (fun it => exists prod, resolves (product db) it prod) pre ->
  ObjectId_of (OrderItemIn.product_id it) = Ok oid ->
  find_one (id_is oid) (product db) = None ->
  create_order now gen db body
  = (Raise (HTTPException 400
              ("Invalid product: " ++ OrderItemIn.product_id it)), db).
Proof.
  intros Hb Hpre Ho Hf.
  destruct (items_out_resolved _ _ Hpre) as (snaps & Hs & _).
  unfold create_order.
  now rewrite Hb, (items_out_unknown _ _ _ _ _ _ Hs Ho Hf).
Qed.

Lemma create_order_first_unknown_witness :
  create_order Samples.clock Samples.ids Samples.with_catalog
    (OrderCreateIn.mk "Rama" "not a phone" "Damascus" "Street 1" None None
       [OrderItemIn.mk (str (Samples.ids 0%nat)) 1;
        OrderItemIn.mk "ffffffffffffffffffffffff" 2;
        OrderItemIn.mk "abc" 1])
  = (Raise (HTTPException 400 "Invalid product: ffffffffffffffffffffffff"),
     Samples.with_catalog).
Proof.
  apply (create_order_first_unknown Samples.clock Samples.ids
           Samples.with_catalog
           (OrderCreateIn.mk "Rama" "not a phone" "Damascus" "Street 1" None
              None
              [OrderItemIn.mk (str (Samples.ids 0%nat)) 1;
               OrderItemIn.mk "ffffffffffffffffffffffff" 2;
               OrderItemIn.mk "abc" 1])
           [OrderItemIn.mk (str (Samples.ids 0%nat)) 1]
           [OrderItemIn.mk "abc" 1]
           (OrderItemIn.mk "ffffffffffffffffffffffff" 2)
           (Oid "ffffffffffffffffffffffff")).
  - reflexivity.
  - constructor; [|constructor].
    exists (Samples.product_named 0 "Ring" None). eexists. split; reflexivity.
  - reflexivity.
  - reflexivity.
Defined.

(** ** Reading orders *)

Lemma sort_desc_perm (key : OrderDoc.t -> datetime)
    (cursor : list (doc OrderDoc.t)) :
  Permutation (sort_desc key cursor) cursor.
Proof. apply fold_insert_perm. Qed.

Lemma sort_desc_sorted (key : OrderDoc.t -> datetime)
    (cursor : list (doc OrderDoc.t)) :
  Sorted (fun a b => (key (fields b) <= key (fields a))%nat)
         (sort_desc key cursor).
Proof.
  unfold sort_desc.
  assert (H : Sorted (fun a b => (key (fields b) <=? key (fields a))%nat = true)
                (fold_right
                   (insert_by (fun a b => (key (fields b) <=? key (fields a))%nat))
                   [] cursor)).
  { apply fold_insert_sorted. intros a b.
    rewrite Nat.leb_gt, Nat.leb_le. lia. }
  induction H as [|x l _ IH Hhd]; constructor; auto.
  destruct Hhd; constructor. now apply Nat.leb_le.
Qed.

Lemma Sorted_map {A B : Type} (R : A -> A -> Prop) (R' : B -> B -> Prop)
    (f : A -> B) (l : list A) :
  (forall a b, R a b -> R' (f a) (f b)) ->
  Sorted R l -> Sorted R' (map f l).
Proof.
  intros HR. induction 1 as [|x l _ IH Hhd]; simpl; constructor; auto.
  destruct Hhd; simpl; constructor. now apply HR.
Qed.

Lemma stringify_is_string (it : ItemDict.t) :
  exists s, ItemDict.product_id (stringify_product_id it) = VStr s.
Proof.
  unfold stringify_product_id.
  destruct (ItemDict.product_id it) as [s|o] eqn:H; simpl; eauto.
Qed.

Lemma get_orders_In (db : Db.t) (phone : string) (d : doc OrderDoc.t) :
  In d (order db) -> OrderDoc.user_phone (fields d) = phone ->
  In (order_doc_with_id (Some d)) (get_orders db phone).
Proof.
  intros Hin Hp. unfold get_orders.
  apply (in_map (fun o => order_doc_with_id (Some o))).
  apply (Permutation_in _ (Permutation_sym (sort_desc_perm _ _))).
  apply filter_In. split; [exact Hin|].
  unfold user_phone_is. rewrite Hp. apply String.eqb_refl.
Qed.

(** X15: the answer of [get_orders]: it holds the stored orders filed
    under the phone, all of them and no other (each once for each time it is
    stored), the most recently created first, and no item of an answered
    order carries an [ObjectId] under [product_id]. *)
Theorem get_orders_answer (db : Db.t) (phone : string) :
  Permutation (get_orders db phone)
    (map (fun d => order_doc_with_id (Some d))
       (filter (fun d => String.eqb (OrderDoc.user_phone (fields d)) phone)
               (order db))) /\
  Sorted (fun x y => (created_of y <= created_of x)%nat) (get_orders db phone) /\
  Forall (fun x => exists o, x = Some o
                             /\ OrderDoc.user_phone (data o) = phone
                             /\ ids_are_strings (data o))
         (get_orders db phone).
Proof.
  unfold get_orders. split; [|split].
  - apply Permutation_map, sort_desc_perm.
  - apply (Sorted_map
             (fun a b => (OrderDoc.created_at (fields b)
                          <= OrderDoc.created_at (fields a))%nat)).
    + now intros a b H.
    + apply sort_desc_sorted.
  - apply Forall_forall. intros x Hx. apply in_map_iff in Hx as (d & <- & Hd).
    apply (Permutation_in _ (sort_desc_perm _ _)) in Hd.
    apply filter_In in Hd as [_ Hp]. apply String.eqb_eq in Hp.
    eexists. split; [reflexivity|]. split; [exact Hp|].
    unfold ids_are_strings. simpl. apply Forall_forall.
    intros it Hit. apply in_map_iff in Hit as (it' & <- & _).
    apply stringify_is_string.
Qed.

Lemma get_orders_sample :
  map (option_map id) (get_orders MoreSamples.with_orders "+963912345678")
  = [Some (str (Samples.ids 1)); Some (str (Samples.ids 0));
     Some (str (Samples.ids 3))].
Proof. reflexivity. Qed.

(** What [create_order] did when it answers. *)
Lemma create_order_ok (now : nat -> datetime) (gen : nat -> ObjectId)
    (db : Db.t) (body : OrderCreateIn.t) (a : OrderAnswer.t) (db' : Db.t) :
  create_order now gen db body = (Ok a, db') ->
  exists normal o,
    validate_phone (OrderCreateIn.phone body) = Ok normal /\
    db' = set_user
            (set_order db (order db ++ [mk_doc (gen 0%nat) o])%list)
            (upsert_user (now 0%nat) (gen 1%nat)
               (Address.mk None (OrderCreateIn.full_name body) normal
                  (OrderCreateIn.city body) (OrderCreateIn.street body)
                  (OrderCreateIn.notes body))
               (user db))
    /\
    a = OrderAnswer.mk (str (gen 0%nat)) "Pending COD" /\
    OrderDoc.user_phone o = normal /\
    OrderDoc.status o = "Pending COD" /\
    OrderDoc.address o
    = Address.mk None (OrderCreateIn.full_name body) normal
        (OrderCreateIn.city body) (OrderCreateIn.street body)
        (OrderCreateIn.notes body).
Proof.
  unfold create_order.
  destruct (items_out _ _) as [snaps|]; [|discriminate].
  unfold Address.make.
  destruct (validate_phone (OrderCreateIn.phone body)) as [normal|] eqn:Hv;
    simpl; [|discriminate].
  unfold Order.make.
  destruct (Order.make_items snaps) as [its|]; simpl; [|discriminate].
  intros [= <- <-]. exists normal. eexists.
  split; [reflexivity|]. split; [reflexivity|].
  simpl. repeat split.
Qed.

(** X16: an order that was created is listed: when [create_order]
    answers, [get_orders] for the normalised phone of the body holds an
    order with the identifier of the answer and the status [Pending COD]. *)
Theorem create_order_then_get_orders (now : nat -> datetime)
    (gen : nat -> ObjectId) (db : Db.t) (body : OrderCreateIn.t)
    (a : OrderAnswer.t) (db' : Db.t) (normal : string) :
  create_order now gen db body = (Ok a, db') ->
  validate_phone (OrderCreateIn.phone body) = Ok normal ->
  exists o,
    In (Some o) (get_orders db' normal) /\
    id o = OrderAnswer.id a /\
    OrderDoc.status (data o) = OrderAnswer.status a /\
    OrderDoc.status (data o) = "Pending COD".
Proof.
  intros Hc Hv.
  apply create_order_ok in Hc as (normal' & o & Hv' & -> & -> & Hp & Hs & _).
  rewrite Hv in Hv'. injection Hv' as <-.
  eexists. split.
  - apply (get_orders_In _ normal (mk_doc (gen 0%nat) o)); [|exact Hp].
    simpl. apply in_or_app. right. now left.
  - simpl. now rewrite Hs.
Qed.

Lemma create_order_then_get_orders_witness :
  exists o,
    In (Some o)
       (get_orders
          (snd (create_order Samples.clock Samples.ids Samples.with_rama
                  Samples.empty_order))
          "+963912345678") /\
    id o = str (Samples.ids 0%nat) /\
    OrderDoc.status (data o) = "Pending COD".
Proof.
  destruct (create_order_then_get_orders Samples.clock Samples.ids
              Samples.with_rama Samples.empty_order
              (OrderAnswer.mk (str (Samples.ids 0%nat)) "Pending COD")
              (snd (create_order Samples.clock Samples.ids Samples.with_rama
                      Samples.empty_order))
              "+963912345678" eq_refl eq_refl) as (o & Hin & Hid & _ & Hs).
  exists o. auto.
Defined.

Lemma upsert_user_after (t : datetime) (oid : ObjectId) (addr : Address.t)
    (users : collection UserDoc.t) :
  NoDup (map _id users) ->
  exists u',
    find_one (phone_is (Address.phone addr)) (upsert_user t oid addr users)
    = Some u' /\
    existsb (same_key (Address.phone addr) (Address.street addr))
            (addresses_of u') = true /\
    grows users (upsert_user t oid addr users).
Proof.
  intros Hnd. unfold upsert_user.
  destruct (find_one (phone_is (Address.phone addr)) users) as [u|] eqn:Hf.
  - destruct (append_if_new _ _ _ addr t Hnd Hf) as (u' & Hf' & Hex & Hg & _).
    exists u'. destruct (negb _); simpl in *; auto.
  - eexists. split; [|split].
    + unfold insert_one. rewrite (find_one_app _ _ _ Hf).
      unfold find_one, phone_is. simpl. now rewrite String.eqb_refl.
    + unfold addresses_of. simpl. now rewrite same_key_refl.
    + apply grows_insert.
Qed.

(** X17: an order saves its address under the normalised phone: in a
    store whose users have distinct identifiers, when [create_order]
    answers, [get_addresses] for the normalised phone of the body holds an
    address with that phone and the street of the body, and every user
    stored before is kept with its addresses. *)
Theorem create_order_then_get_addresses (now : nat -> datetime)
    (gen : nat -> ObjectId) (db : Db.t) (body : OrderCreateIn.t)
    (a : OrderAnswer.t) (db' : Db.t) (normal : string) :
  NoDup (map _id (user db)) ->
  create_order now gen db body = (Ok a, db') ->
  validate_phone (OrderCreateIn.phone body) = Ok normal ->
  (exists addr,
     In addr (get_addresses db' normal) /\
     Address.phone addr = normal /\
     Address.street addr = OrderCreateIn.street body) /\
  grows (user db) (user db').
Proof.
  intros Hnd Hc Hv.
  apply create_order_ok in Hc as (normal' & o & Hv' & -> & _).
  rewrite Hv in Hv'. injection Hv' as <-.
  set (addr := Address.mk None (OrderCreateIn.full_name body) normal
                 (OrderCreateIn.city body) (OrderCreateIn.street body)
                 (OrderCreateIn.notes body)).
  destruct (upsert_user_after (now 0%nat) (gen 1%nat) addr (user db) Hnd)
    as (u' & Hf & Hex & Hg).
  simpl. split; [|exact Hg].
  unfold get_addresses. simpl. simpl in Hf. rewrite Hf.
  apply existsb_exists in Hex as (x & Hin & Hk).
  apply same_key_true in Hk as [Hxp Hxs].
  exists x. auto.
Qed.

Lemma create_order_then_get_addresses_witness :
  (exists addr,
     In addr (get_addresses
                (snd (create_order Samples.clock Samples.ids Db.empty
                        Samples.empty_order)) "+963912345678") /\
     Address.phone addr = "+963912345678" /\
     Address.street addr = "Street 1") /\
  grows (user Db.empty)
        (user (snd (create_order Samples.clock Samples.ids Db.empty
                      Samples.empty_order))).
Proof.
  apply (create_order_then_get_addresses Samples.clock Samples.ids Db.empty
           Samples.empty_order
           (OrderAnswer.mk (str (Samples.ids 0%nat)) "Pending COD")
           (snd (create_order Samples.clock Samples.ids Db.empty
                   Samples.empty_order))
           "+963912345678").
  - constructor.
  - reflexivity.
  - reflexivity.
Defined.

(** ** Stored phones *)

Lemma users_normalised_insert (users : collection UserDoc.t) (oid : ObjectId)
    (phone name : string) (addr : Address.t) (t t' : datetime) :
  intl_shape (Address.phone addr) ->
  Forall (fun u => Forall (fun a => intl_shape (Address.phone a))
                          (addresses_of u)) users ->
  Forall (fun u => Forall (fun a => intl_shape (Address.phone a))
                          (addresses_of u))
         (insert_one oid (user_dump (User.make phone name [addr]) t t') users).
Proof.
  intros Ha Hu. unfold insert_one. apply Forall_app. split; [exact Hu|].
  constructor; [|constructor]. unfold addresses_of. simpl. now constructor.
Qed.

Lemma users_normalised_append (users : collection UserDoc.t)
    (u : doc UserDoc.t) (oid : ObjectId) (addr : Address.t) (t : datetime) :
  intl_shape (Address.phone addr) ->
  Forall (fun a => intl_shape (Address.phone a)) (addresses_of u) ->
  Forall (fun u => Forall (fun a => intl_shape (Address.phone a))
                          (addresses_of u)) users ->
  Forall (fun u => Forall (fun a => intl_shape (Address.phone a))
                          (addresses_of u))
         (fst (update_one (id_is oid)
                 (set_addresses (addresses_of u ++ [addr])%list t) users)).
Proof.
  intros Ha Hu Hus. apply update_one_Forall; [|exact Hus].
  intros d. unfold addresses_of at 1. simpl.
  apply Forall_app. split; [exact Hu|now constructor].
Qed.

Lemma find_one_In {A : Type} (q : doc A -> bool) (c : collection A) (d : doc A) :
  find_one q c = Some d -> In d c.
Proof. intros H. now apply find_some in H. Qed.

Lemma add_address_normalised (now : nat -> datetime) (gen : nat -> ObjectId)
    (db : Db.t) (phone : string) (body : Address.t) :
  intl_shape (Address.phone body) ->
  phones_normalised db ->
  phones_normalised (snd (add_address now gen db phone body)).
Proof.
  intros Hb [Hu Ho]. unfold add_address.
  destruct (find_one (phone_is phone) (user db)) as [u|] eqn:Hf.
  - destruct (negb _); [|now split].
    split; [|exact Ho]. simpl.
    apply users_normalised_append; auto.
    rewrite Forall_forall in Hu. apply Hu. now apply find_one_In in Hf.
  - split; [|exact Ho]. simpl. now apply users_normalised_insert.
Qed.

Lemma upsert_user_normalised (t : datetime) (oid : ObjectId) (addr : Address.t)
    (users : collection UserDoc.t) :
  intl_shape (Address.phone addr) ->
  Forall (fun u => Forall (fun a => intl_shape (Address.phone a))
                          (addresses_of u)) users ->
  Forall (fun u => Forall (fun a => intl_shape (Address.phone a))
                          (addresses_of u)) (upsert_user t oid addr users).
Proof.
  intros Ha Hu. unfold upsert_user.
  destruct (find_one _ users) as [u|] eqn:Hf.
  - destruct (negb _); [|exact Hu].
    apply users_normalised_append; auto.
    rewrite Forall_forall in Hu. apply Hu. now apply find_one_In in Hf.
  - now apply users_normalised_insert.
Qed.

Lemma step_normalised (now : nat -> datetime) (gen : nat -> ObjectId)
    (db : Db.t) (r : request) :
  phones_normalised db -> phones_normalised (step now gen db r).
Proof.
  intros Hinv. destruct r as [env force|phone raw|body|order_id body]; simpl.
  - destruct (seed_products_orders now gen env db force) as [Ho Hu].
    unfold phones_normalised. now rewrite Ho, Hu.
  - unfold post_address, Address.make.
    destruct (validate_phone (Address.phone raw)) as [normal|] eqn:Hv; simpl;
      [|exact Hinv].
    apply add_address_normalised; [|exact Hinv].
    simpl. now apply validate_phone_intl in Hv.
  - unfold post_order. destruct (forallb _ _); [|exact Hinv].
    destruct (create_order now gen db body) as [[a|e] db'] eqn:Hc.
    + apply create_order_ok in Hc as (normal & o & Hv & -> & _ & Hp & _ & Ha).
      apply validate_phone_intl in Hv as [Hi _].
      destruct Hinv as [Hu Ho]. split; simpl.
      * now apply upsert_user_normalised.
      * apply Forall_app. split; [exact Ho|].
        constructor; [|constructor]. simpl. now rewrite Hp, Ha.
    + pose proof (create_order_raise_keeps_db now gen db body e) as H.
      rewrite Hc in H. simpl in *. now rewrite H.
  - destruct Hinv as [Hu Ho]. unfold update_order_status.
    destruct (negb _); [now split|].
    destruct (ObjectId_of order_id) as [oid|]; [|now split].
    destruct (encode_upd body); [|now split].
    assert (Hnew : Forall
                     (fun o => intl_shape (OrderDoc.user_phone (fields o))
                               /\ intl_shape (Address.phone
                                                (OrderDoc.address (fields o))))
                     (fst (update_one (id_is oid) (set_upd body (now 0%nat))
                             (order db)))).
    { apply Forall_forall. intros d Hd.
      assert (Hsame : exists d0, In d0 (order db)
                 /\ OrderDoc.user_phone (fields d) = OrderDoc.user_phone (fields d0)
                 /\ OrderDoc.address (fields d) = OrderDoc.address (fields d0)).
      { clear Ho. revert Hd. induction (order db) as [|x c IH]; simpl;
          [contradiction|].
        destruct (id_is oid x).
        - intros [<-|Hd]; [exists x; simpl; auto|exists d; auto].
        - destruct (update_one (id_is oid) (set_upd body (now 0%nat)) c).
          simpl in *. intros [<-|Hd]; [exists x; auto|].
          destruct (IH Hd) as (d0 & Hin & H1 & H2). exists d0. auto. }
      destruct Hsame as (d0 & Hin & -> & ->).
      rewrite Forall_forall in Ho. now apply Ho. }
    destruct (update_one _ _ _) as [orders n]. simpl in Hnew.
    destruct (n =? 0)%nat; [now split|].
    destruct (ObjectId_of order_id); now split.
Qed.

(** X18: every stored phone of an address is normalised: in every store
    the service reaches from the empty one, each address of each user, and
    each order's [user_phone] and address, carries a phone that starts with
    [+963] and has 12 or 13 characters. *)
Theorem reachable_phones_normalised (db : Db.t) :
  reachable db -> phones_normalised db.
Proof.
  induction 1 as [|now gen db r _ IH].
  - split; constructor.
  - now apply step_normalised.
Qed.

Lemma reachable_phones_normalised_witness :
  phones_normalised
    (step Samples.clock Samples.ids
       (step Samples.clock Samples.ids Db.empty
          (PostAddress "0912345678"
             (Address.mk None "Rama" "0912345678" "Damascus" "Street 1" None)))
       (PostOrder Samples.empty_order)).
Proof.
  apply (reachable_phones_normalised
           (step Samples.clock Samples.ids
              (step Samples.clock Samples.ids Db.empty
                 (PostAddress "0912345678"
                    (Address.mk None "Rama" "0912345678" "Damascus" "Street 1"
                       None)))
              (PostOrder Samples.empty_order))).
  apply reach_step, reach_step, reach_empty.
Defined.

Lemma filter_none {A : Type} (q : A -> bool) (l : list A) :
  (forall x, In x l -> q x = false) -> filter q l = [].
Proof.
  induction l as [|x l IH]; simpl; [reflexivity|]. intros H.
  rewrite (H x (or_introl eq_refl)). apply IH. auto.
Qed.

Lemma intl_shape_prefix (s : string) : intl_shape s -> startswith s "+963" = true.
Proof. now intros [H _]. Qed.

(** X19: orders are filed under the normalised phone only: in every
    store the service reaches, a phone that does not start with [+963]
    (the local spelling [09...] for one) finds no order, [get_orders]
    answers the empty list and [order_notifications] answers that nothing is
    on delivery. *)
Theorem unnormalised_phone_finds_nothing (db : Db.t) (phone : string) :
  reachable db -> startswith phone "+963" = false ->
  get_orders db phone = [] /\
  order_notifications db phone = Notification.mk false None None.
Proof.
  intros Hr Hp.
  assert (Hinv : phones_normalised db).
  { induction Hr as [|now gen db r _ IH];
      [split; constructor|now apply step_normalised]. }
  destruct Hinv as [_ Ho]. rewrite Forall_forall in Ho.
  assert (Hq : forall d, In d (order db) -> user_phone_is phone d = false).
  { intros d Hd. unfold user_phone_is.
    destruct (String.eqb _ phone) eqn:He; [|reflexivity].
    apply String.eqb_eq in He. destruct (Ho d Hd) as [Hi _].
    apply intl_shape_prefix in Hi. congruence. }
  split.
  - unfold get_orders, find. now rewrite (filter_none _ _ Hq).
  - unfold order_notifications, find. rewrite filter_none; [reflexivity|].
    intros d Hd. unfold on_delivery_of. now rewrite (Hq d Hd).
Qed.

Lemma unnormalised_phone_finds_nothing_witness :
  let db := step Samples.clock Samples.ids Db.empty
              (PostOrder Samples.empty_order) in
  List.length (get_orders db "+963912345678") = 1%nat /\
  get_orders db "0912345678" = [] /\
  order_notifications db "0912345678" = Notification.mk false None None.
Proof.
  split; [reflexivity|].
  apply (unnormalised_phone_finds_nothing
           (step Samples.clock Samples.ids Db.empty
              (PostOrder Samples.empty_order)) "0912345678").
  - apply reach_step, reach_empty.
  - reflexivity.
Defined.

(** ** Delivery notifications *)

Lemma on_delivery_of_true (phone : string) (d : doc OrderDoc.t) :
  on_delivery_of phone d = true
  <-> OrderDoc.user_phone (fields d) = phone
      /\ OrderDoc.status (fields d) = "On Delivery".
Proof.
  unfold on_delivery_of, user_phone_is.
  now rewrite andb_true_iff, !String.eqb_eq.
Qed.

Lemma order_notifications_true (db : Db.t) (phone : string)
    (d : doc OrderDoc.t) :
  In d (order db) -> on_delivery_of phone d = true ->
  Notification.on_delivery (order_notifications db phone) = true.
Proof.
  intros Hin Hq. unfold order_notifications.
  destruct (sort_desc _ _) as [|x l] eqn:Hs; [|reflexivity].
  exfalso.
  assert (Hd : In d (find (on_delivery_of phone) (order db)))
    by (apply filter_In; auto).
  apply (Permutation_in _ (Permutation_sym (sort_desc_perm OrderDoc.updated_at _)))
    in Hd.
  rewrite Hs in Hd. contradiction.
Qed.

(** X20: the answer of [order_notifications]: it says that nothing is
    on delivery exactly when no stored order of the phone has the status
    [On Delivery]; otherwise it names a stored order of the phone with that
    status, with its delivery date, and no such order was updated later. *)
Theorem order_notifications_answer (db : Db.t) (phone : string) :
  match order_notifications db phone with
  | Notification.mk true (Some oid) edd =>
      exists d,
        In d (order db) /\ str (_id d) = oid /\
        OrderDoc.user_phone (fields d) = phone /\
        OrderDoc.status (fields d) = "On Delivery" /\
        edd = OrderDoc.expected_delivery_date (fields d) /\
        forall d',
          In d' (order db) -> OrderDoc.user_phone (fields d') = phone ->
          OrderDoc.status (fields d') = "On Delivery" ->
          (OrderDoc.updated_at (fields d') <= OrderDoc.updated_at (fields d))%nat
  | Notification.mk false None None =>
      forall d,
        In d (order db) -> OrderDoc.user_phone (fields d) = phone ->
        OrderDoc.status (fields d) <> "On Delivery"
  | _ => False
  end.
Proof.
  unfold order_notifications.
  pose proof (sort_desc_perm OrderDoc.updated_at
                (find (on_delivery_of phone) (order db))) as Hperm.
  pose proof (sort_desc_sorted OrderDoc.updated_at
                (find (on_delivery_of phone) (order db))) as Hsorted.
  destruct (sort_desc _ _) as [|x l].
  - intros d Hin Hp Hs.
    assert (Hd : In d (find (on_delivery_of phone) (order db))).
    { apply filter_In. split; [exact Hin|]. now apply on_delivery_of_true. }
    apply (Permutation_in _ (Permutation_sym Hperm)) in Hd. contradiction.
  - assert (Hx : In x (find (on_delivery_of phone) (order db)))
      by (apply (Permutation_in _ Hperm); now left).
    apply filter_In in Hx as [Hin Hq]. apply on_delivery_of_true in Hq as [Hp Hs].
    exists x. repeat split; auto.
    intros d' Hin' Hp' Hs'.
    assert (Hd : In d' (x :: l)).
    { apply (Permutation_in _ (Permutation_sym Hperm)).
      apply filter_In. split; [exact Hin'|]. now apply on_delivery_of_true. }
    destruct Hd as [<-|Hd]; [lia|].
    apply Sorted_extends in Hsorted; [|intros a b c Hab Hbc; lia].
    rewrite Forall_forall in Hsorted. now apply Hsorted.
Qed.

Lemma order_notifications_sample :
  order_notifications MoreSamples.with_orders "+963912345678"
  = Notification.mk true (Some (str (Samples.ids 3))) (Some 24%nat)
  /\ order_notifications MoreSamples.with_orders "+963911111111"
     = Notification.mk false None None.
Proof. split; reflexivity. Qed.

(** ** Status updates, further *)

(** What [update_order_status] did when it answers. *)
Lemma update_order_status_ok (now : nat -> datetime) (db : Db.t)
    (order_id : string) (body : StatusUpdateIn.t)
    (r : option (with_id OrderDoc.t)) (db' : Db.t) :
  update_order_status now db order_id body = (Ok r, db') ->
  exists oid pre d post,
    str_in (StatusUpdateIn.status body) OrderStatus = true /\
    ObjectId_of order_id = Ok oid /\
    order db = (pre ++ d :: post)%list /\
    find_one (id_is oid) pre = None /\ _id d = oid /\
    r = order_doc_with_id
          (Some (mk_doc (_id d) (set_upd body (now 0%nat) (fields d)))) /\
    db' = set_order db
            (pre ++ mk_doc (_id d) (set_upd body (now 0%nat) (fields d))
                 :: post)%list.
Proof.
  intros H.
  destruct (str_in (StatusUpdateIn.status body) OrderStatus) eqn:Hs.
  2:{ rewrite (update_order_status_invalid now db order_id body Hs) in H.
      discriminate H. }
  destruct (ObjectId_of order_id) as [oid|e] eqn:Ho.
  2:{ unfold update_order_status in H.
      rewrite allowed_is_OrderStatus, Hs, Ho in H. discriminate H. }
  destruct (StatusUpdateIn.expected_delivery_date body) as [day|] eqn:Hday.
  1:{ rewrite (update_order_status_date now db order_id body oid day Hs Ho Hday)
        in H. discriminate H. }
  destruct (find_one (id_is oid) (order db)) as [d|] eqn:Hf.
  2:{ rewrite (update_order_status_not_found now db order_id body oid
                 Hs Ho Hday Hf) in H. discriminate H. }
  apply find_one_split in Hf as (pre & post & Hc & Hpre & Hd).
  rewrite (update_order_status_found now db order_id body oid pre post d
             Hs Ho Hday Hc Hpre Hd) in H.
  injection H as <- <-.
  exists oid, pre, d, post. repeat split; auto. now apply eqb_eq in Hd.
Qed.

(** X21: a status update to [On Delivery] shows in the notifications:
    when [update_order_status] answers an order and the new status is
    [On Delivery], [order_notifications] for the phone the order is filed
    under says that an order is on delivery. *)
Theorem update_then_notification (now : nat -> datetime) (db : Db.t)
    (order_id : string) (body : StatusUpdateIn.t) (o : with_id OrderDoc.t)
    (db' : Db.t) :
  update_order_status now db order_id body = (Ok (Some o), db') ->
  StatusUpdateIn.status body = "On Delivery" ->
  Notification.on_delivery
    (order_notifications db' (OrderDoc.user_phone (data o))) = true.
Proof.
  intros H Hs.
  apply update_order_status_ok in H
    as (oid & pre & d & post & _ & _ & _ & _ & _ & Hr & ->).
  injection Hr as ->. simpl.
  apply (order_notifications_true _ _
           (mk_doc (_id d) (set_upd body (now 0%nat) (fields d)))).
  - simpl. apply in_or_app. right. now left.
  - apply on_delivery_of_true. simpl. now split.
Qed.

Lemma update_then_notification_witness :
  Notification.on_delivery
    (order_notifications MoreSamples.with_orders "+963955555555") = false /\
  Notification.on_delivery
    (order_notifications
       (snd (update_order_status Samples.clock MoreSamples.with_orders
               (str (Samples.ids 4%nat))
               (StatusUpdateIn.mk "On Delivery" (Some "with the courier") None)))
       "+963955555555") = true.
Proof.
  split; [reflexivity|].
  destruct (update_order_status Samples.clock MoreSamples.with_orders
              (str (Samples.ids 4%nat))
              (StatusUpdateIn.mk "On Delivery" (Some "with the courier") None))
    as [[[o|]|e] db'] eqn:Hu; try discriminate Hu.
  assert (Hp : OrderDoc.user_phone (data o) = "+963955555555").
  { injection Hu as <- _. reflexivity. }
  rewrite <- Hp.
  apply (update_then_notification Samples.clock MoreSamples.with_orders
           (str (Samples.ids 4%nat))
           (StatusUpdateIn.mk "On Delivery" (Some "with the courier") None)
           o db' Hu).
  reflexivity.
Defined.

Lemma update_one_nth {A : Type} (q : doc A -> bool) (set : A -> A)
    (c : collection A) (i : nat) (d : doc A) :
  nth_error c i = Some d ->
  nth_error (fst (update_one q set c)) i = Some d
  \/ (q d = true
      /\ nth_error (fst (update_one q set c)) i
         = Some (mk_doc (_id d) (set (fields d)))).
Proof.
  revert i. induction c as [|x c IH]; intros i; [now destruct i|].
  simpl. destruct (q x) eqn:Hx.
  - destruct i as [|i]; simpl; [|now left].
    intros [= <-]. right. now split.
  - destruct (update_one q set c) as [c' n] eqn:Hu. simpl in *.
    destruct i as [|i]; simpl; [now left|]. apply IH.
Qed.

(** X22: a status update touches one order at most: whatever the answer
    is, the catalog and the users are as they were, and every stored order
    is still at its place, either untouched or, if its identifier is the one
    asked for, rewritten with the new status, the time of the call, and the
    optional fields that were given, its other keys kept. *)
Theorem update_order_status_frame (now : nat -> datetime) (db : Db.t)
    (order_id : string) (body : StatusUpdateIn.t) :
  let db' := snd (update_order_status now db order_id body) in
  product db' = product db /\ user db' = user db /\
  List.length (order db') = List.length (order db) /\
  forall i d,
    nth_error (order db) i = Some d ->
    nth_error (order db') i = Some d
    \/ (ObjectId_of order_id = Ok (_id d)
        /\ nth_error (order db') i
           = Some (mk_doc (_id d) (set_upd body (now 0%nat) (fields d)))).
Proof.
  unfold update_order_status.
  destruct (negb _); [simpl; repeat split; auto|].
  destruct (ObjectId_of order_id) as [oid|] eqn:Ho; [|simpl; repeat split; auto].
  destruct (encode_upd body); [|simpl; repeat split; auto].
  assert (H : let c' := fst (update_one (id_is oid) (set_upd body (now 0%nat))
                               (order db)) in
              List.length c' = List.length (order db) /\
              forall i d,
                nth_error (order db) i = Some d ->
                nth_error c' i = Some d
                \/ (Ok oid = Ok (_id d)
                    /\ nth_error c' i
                       = Some (mk_doc (_id d)
                                 (set_upd body (now 0%nat) (fields d))))).
  { split.
    - rewrite <- (length_map _id), update_one_ids. apply length_map.
    - intros i d Hd.
      destruct (update_one_nth (id_is oid) (set_upd body (now 0%nat))
                  _ _ _ Hd) as [H|[Hq H]]; [now left|right].
      apply eqb_eq in Hq. split; [now rewrite Hq|exact H]. }
  destruct (update_one _ _ _) as [orders n]. simpl in H.
  destruct (n =? 0)%nat; simpl; tauto.
Qed.

(** X23: the answer of a status update is the stored order: when
    [update_order_status] answers, the answer is an order whose [id] is the
    requested identifier in lower case, whose status is the one asked for
    and whose [updated_at] is the time of the call; the store then holds an
    order with that identifier, status and time, and [get_orders] for its
    phone lists the answer. *)
Theorem update_order_status_answer (now : nat -> datetime) (db : Db.t)
    (order_id : string) (body : StatusUpdateIn.t)
    (r : option (with_id OrderDoc.t)) (db' : Db.t) :
  update_order_status now db order_id body = (Ok r, db') ->
  exists o d,
    r = Some o /\
    id o = lower_str order_id /\
    OrderDoc.status (data o) = StatusUpdateIn.status body /\
    In (OrderDoc.status (data o)) OrderStatus /\
    OrderDoc.updated_at (data o) = now 0%nat /\
    ids_are_strings (data o) /\
    In d (order db') /\ order_doc_with_id (Some d) = Some o /\
    In (Some o) (get_orders db' (OrderDoc.user_phone (data o))).
Proof.
  intros H.
  apply update_order_status_ok in H
    as (oid & pre & d & post & Hs & Ho & _ & _ & Hid & -> & ->).
  apply ObjectId_of_well_formed in Ho as [_ Hstr].
  set (d' := mk_doc (_id d) (set_upd body (now 0%nat) (fields d))).
  assert (Hin : In d' (order (set_order db (pre ++ d' :: post)%list))).
  { simpl. apply in_or_app. right. now left. }
  apply str_in_In in Hs.
  eexists. exists d'. split; [reflexivity|]. simpl.
  repeat split; auto.
  - now rewrite Hid.
  - unfold ids_are_strings. simpl. apply Forall_forall.
    intros it Hit. apply in_map_iff in Hit as (it' & <- & _).
    apply stringify_is_string.
  - apply (get_orders_In _ _ d' Hin). reflexivity.
Qed.

Lemma update_order_status_answer_witness :
  exists o,
    fst (update_order_status Samples.clock MoreSamples.with_orders
           "A0123456789ABCDEF0123456"
           (StatusUpdateIn.mk "Delivered" (Some "signed") None)) = Ok (Some o)
    /\ id o = "a0123456789abcdef0123456"
    /\ OrderDoc.status (data o) = "Delivered".
Proof.
  destruct (update_order_status Samples.clock MoreSamples.with_orders
              "A0123456789ABCDEF0123456"
              (StatusUpdateIn.mk "Delivered" (Some "signed") None))
    as [[r|e] db'] eqn:Hu; [|discriminate Hu].
  destruct (update_order_status_answer Samples.clock MoreSamples.with_orders
              "A0123456789ABCDEF0123456"
              (StatusUpdateIn.mk "Delivered" (Some "signed") None) r db' Hu)
    as (o & d & -> & Hid & Hs & _).
  exists o. auto.
Defined.

Lemma set_upd_idempotent (body : StatusUpdateIn.t) (t : datetime)
    (o : OrderDoc.t) :
  set_upd body t (set_upd body t o) = set_upd body t o.
Proof.
  unfold set_upd. simpl.
  now destruct (StatusUpdateIn.admin_note body),
               (StatusUpdateIn.expected_delivery_date body).
Qed.

(** X24: a status update can be repeated: sending the same update again
    at the same clock reading gives the same answer and leaves the store as
    the first call left it (there is no state in which the second call is
    refused: any allowed status can follow any other). *)
Theorem update_order_status_idempotent (now : nat -> datetime) (db : Db.t)
    (order_id : string) (body : StatusUpdateIn.t) :
  update_order_status now
    (snd (update_order_status now db order_id body)) order_id body
  = update_order_status now db order_id body.
Proof.
  destruct (str_in (StatusUpdateIn.status body) OrderStatus) eqn:Hs.
  2:{ now rewrite !(update_order_status_invalid now _ order_id body Hs). }
  destruct (ObjectId_of order_id) as [oid|e] eqn:Ho.
  2:{ unfold update_order_status.
      rewrite allowed_is_OrderStatus, Hs, Ho. reflexivity. }
  destruct (StatusUpdateIn.expected_delivery_date body) as [day|] eqn:Hday.
  1:{ now rewrite !(update_order_status_date now _ order_id body oid day
                      Hs Ho Hday). }
  destruct (find_one (id_is oid) (order db)) as [d|] eqn:Hf.
  2:{ rewrite (update_order_status_not_found now db order_id body oid
                 Hs Ho Hday Hf).
      simpl.
      now rewrite (update_order_status_not_found now db order_id body oid
                     Hs Ho Hday Hf). }
  apply find_one_split in Hf as (pre & post & Hc & Hpre & Hd).
  rewrite (update_order_status_found now db order_id body oid pre post d
             Hs Ho Hday Hc Hpre Hd).
  cbn [snd].
  set (d' := mk_doc (_id d) (set_upd body (now 0%nat) (fields d))).
  rewrite (update_order_status_found now
             (set_order db (pre ++ d' :: post)%list) order_id body oid
             pre post d' Hs Ho Hday eq_refl Hpre Hd).
  subst d'. simpl. rewrite set_upd_idempotent. reflexivity.
Qed.

Lemma update_order_status_keeps (now : nat -> datetime) (db : Db.t)
    (order_id : string) (body : StatusUpdateIn.t) :
  product (snd (update_order_status now db order_id body)) = product db /\
  user (snd (update_order_status now db order_id body)) = user db.
Proof.
  unfold update_order_status.
  destruct (negb _); [now split|].
  destruct (ObjectId_of order_id) as [oid|] eqn:Ho; [|now split].
  destruct (encode_upd body); [|now split].
  destruct (update_one _ _ _) as [orders n].
  destruct (n =? 0)%nat; now split.
Qed.

Lemma create_order_keeps_products (now : nat -> datetime)
    (gen : nat -> ObjectId) (db : Db.t) (body : OrderCreateIn.t) :
  product (snd (create_order now gen db body)) = product db.
Proof.
  destruct (create_order now gen db body) as [[a|e] db'] eqn:Hc.
  - now apply create_order_ok in Hc as (normal & o & _ & -> & _).
  - pose proof (create_order_raise_keeps_db now gen db body e) as H.
    rewrite Hc in H. simpl in *. now rewrite H.
Qed.

(** X25: only seeding writes the catalog: a request that is not a
    seeding request (an address, an order, a status update), whatever it
    answers, leaves the products exactly as they were. *)
Theorem only_seeding_writes_products (now : nat -> datetime)
    (gen : nat -> ObjectId) (db : Db.t) (r : request) :
  (forall env force, r <> Seed env force) ->
  product (step now gen db r) = product db.
Proof.
  intros Hr. destruct r as [env force|phone raw|body|order_id body]; simpl.
  - now contradiction (Hr env force).
  - unfold post_address.
    destruct (Address.make _ _ _ _ _ _); [apply add_address_orders|reflexivity].
  - unfold post_order. destruct (forallb _ _); [|reflexivity].
    apply create_order_keeps_products.
  - apply update_order_status_keeps.
Qed.

Lemma only_seeding_writes_products_witness :
  product (step Samples.clock Samples.ids Samples.with_catalog
             (PostOrder Samples.empty_order))
  = Samples.catalog.
Proof.
  apply (only_seeding_writes_products Samples.clock Samples.ids
           Samples.with_catalog (PostOrder Samples.empty_order)).
  discriminate.
Defined.
